(** * Ottawa Traffic Collision Report: the data pipeline of [app.py]

    The dashboard script loads a fact table and eight lookup sheets, joins
    them (pandas [merge], [how="left"]), filters the joined table by the
    sidebar selections (boolean masks built with [isin]) and computes summary
    figures ([mode], [value_counts], [sum / len]).  This file embeds those
    steps and proves their properties.

    Two levels of data are used, as in the script:
    - the loader works on untyped frames (named columns, rows of cells),
      because [merge] is generic in the columns;
    - the dashboard reads fixed columns of the joined table, each column with
      its pandas dtype, so a row of that table is a record. *)

From Stdlib Require Import List ZArith QArith Bool Lia String Ascii Permutation
  Sorted.
Import ListNotations.
Open Scope string_scope.
Open Scope list_scope.

(** ** Exceptions and the [try] body *)

(** The exceptions the loader's [try] body can raise. *)
Inductive exn : Type :=
| FileNotFoundError (path : string)   (* a missing input file *)
| KeyError (key : string)             (* a missing sheet, column or label *)
| ValueError (msg : string).          (* [parse_dates] names an absent column *)

(** A computation that returns or raises. *)
Definition result (A : Type) : Type := (exn + A)%type.

Definition ret {A} (a : A) : result A := inr a.
Definition raise {A} (e : exn) : result A := inl e.
Definition bind {A B} (m : result A) (k : A -> result B) : result B :=
  match m with
  | inl e => inl e
  | inr a => k a
  end.

Definition raises {A} (m : result A) : Prop := exists e, m = raise e.

Notation "x <- m ;; k" := (bind m (fun x => k))
  (at level 61, m at next level, right associativity).

(** ** Frames: the loader's view of a table *)

Module Frame.

(** One cell of a frame.  [NA] is pandas' missing value (NaN, NaT, None). *)
Inductive cell : Type :=
| NA
| Num (z : Z)
| Str (s : string)
| Date (y m d : Z).

Definition cell_eqb (a b : cell) : bool :=
  match a, b with
  | NA, NA => true
  | Num x, Num y => Z.eqb x y
  | Str x, Str y => String.eqb x y
  | Date y1 m1 d1, Date y2 m2 d2 => Z.eqb y1 y2 && Z.eqb m1 m2 && Z.eqb d1 d2
  | _, _ => false
  end.

(** A DataFrame: the column labels and the rows, each row holding one cell
    per column, in column order. *)
Record DataFrame : Type := mkFrame {
  columns : list string;
  rows : list (list cell)
}.

(** [pd.DataFrame()] *)
Definition empty_frame : DataFrame := mkFrame [] [].

(** [len(df)] *)
Definition len (df : DataFrame) : nat := List.length (rows df).

(** [df.empty]: some axis has length zero. *)
Definition empty (df : DataFrame) : bool :=
  match columns df, rows df with
  | [], _ => true
  | _, [] => true
  | _, _ => false
  end.

(** Position of a label among the columns (the first one, if repeated). *)
Fixpoint index_of (c : string) (cols : list string) : option nat :=
  match cols with
  | [] => None
  | x :: tl => if String.eqb c x then Some 0%nat
               else option_map S (index_of c tl)
  end.

Definition has_column (c : string) (cols : list string) : bool :=
  match index_of c cols with Some _ => true | None => false end.

(** Looking up the join column: [KeyError] when the frame lacks it. *)
Definition key_index (c : string) (df : DataFrame) : result nat :=
  match index_of c (columns df) with
  | Some i => ret i
  | None => raise (KeyError c)
  end.

Definition at_col (i : nat) (r : list cell) : cell := nth i r NA.

(** A row without its [i]-th cell. *)
Fixpoint drop_nth {A} (i : nat) (l : list A) : list A :=
  match l, i with
  | [], _ => []
  | _ :: tl, O => tl
  | x :: tl, S j => x :: drop_nth j tl
  end.

(** Columns of the merged frame: a label that both sides carry, other than
    the join key, gets the suffix [_x] on the left and [_y] on the right
    (pandas' default [suffixes]). *)
Definition suffixed (sfx : string) (others : list string) (key c : string)
  : string :=
  if negb (String.eqb c key) && has_column c others then String.append c sfx else c.

(** [s] ends with [sfx]. *)
Fixpoint ends_with (sfx s : string) : bool :=
  String.eqb s sfx ||
  match s with
  | EmptyString => false
  | String _ tl => ends_with sfx tl
  end.

Definition merged_columns (key : string) (ri : nat) (lc rc : list string)
  : list string :=
  map (suffixed "_x" rc key) lc
    ++ map (suffixed "_y" lc key) (drop_nth ri rc).

(** The rows a left row [l] contributes to a left join: one per right row
    with the same key (missing keys match each other, as pandas does), in the
    right frame's order; a row without a partner is kept once, padded with
    missing values. *)
Definition join_row (li ri : nat) (right : DataFrame) (l : list cell)
  : list (list cell) :=
  match filter (fun r => cell_eqb (at_col li l) (at_col ri r)) (rows right) with
  | [] => [l ++ repeat NA (List.length (columns right) - 1)]
  | ms => map (fun r => l ++ drop_nth ri r) ms
  end.

(** [left.merge(right, on=key, how="left")] *)
Definition merge (left right : DataFrame) (key : string) : result DataFrame :=
  li <- key_index key left ;;
  ri <- key_index key right ;;
  ret (mkFrame (merged_columns key ri (columns left) (columns right))
               (flat_map (join_row li ri right) (rows left))).

End Frame.

(** ** The loader ([load_data], lines 17-38) and the gate after it *)

Module Loader.
Import Frame.

(** What the two input paths hold: [None] for a file that is not there.
    The fact file is given as the frame [read_csv] parses it into, the
    workbook as its sheets by name ([sheet_name=None] reads them all). *)
Record Files : Type := mkFiles {
  csv : option DataFrame;
  xlsx : option (list (string * DataFrame))
}.

Definition fact_path : string := "Data/Cleaned_Traffic_Data.csv".
Definition dim_path : string := "Data/Dimtables.xlsx".

(** [pd.read_csv(fact_path, parse_dates=["accident_date"])] *)
Definition read_csv (fs : Files) : result DataFrame :=
  match csv fs with
  | None => raise (FileNotFoundError fact_path)
  | Some df =>
      if has_column "accident_date" (columns df) then ret df
      else raise (ValueError
                    "Missing column provided to 'parse_dates': 'accident_date'")
  end.

(** [pd.read_excel(dim_path, sheet_name=None)] *)
Definition read_excel (fs : Files) : result (list (string * DataFrame)) :=
  match xlsx fs with
  | None => raise (FileNotFoundError dim_path)
  | Some sheets => ret sheets
  end.

Fixpoint lookup (name : string) (d : list (string * DataFrame))
  : option DataFrame :=
  match d with
  | [] => None
  | (k, v) :: tl => if String.eqb name k then Some v else lookup name tl
  end.

(** [dim_data[name]] *)
Definition getitem (d : list (string * DataFrame)) (name : string)
  : result DataFrame :=
  match lookup name d with
  | Some t => ret t
  | None => raise (KeyError name)
  end.

(** One line of the merge block:
    [fact_df.merge(dim_data[sheet], on=key, how="left")]. *)
Definition merge_dim (dim_data : list (string * DataFrame))
    (fact_df : DataFrame) (sheet key : string) : result DataFrame :=
  t <- getitem dim_data sheet ;;
  merge fact_df t key.

(** The body of the [try] (lines 19-33). *)
Definition load_body (fs : Files)
  : result (DataFrame * list (string * DataFrame)) :=
  fact_df <- read_csv fs ;;
  dim_data <- read_excel fs ;;
  fact_df <- merge_dim dim_data fact_df "Dimlocation_type" "location_type_id" ;;
  fact_df <- merge_dim dim_data fact_df "Dimclassification_of_accident" "Classificationid" ;;
  fact_df <- merge_dim dim_data fact_df "Diminitial_impact_type" "impactid" ;;
  fact_df <- merge_dim dim_data fact_df "Dimroad_surface_condition" "road_conditionid" ;;
  fact_df <- merge_dim dim_data fact_df "Dimenvironment_condition" "environmentid" ;;
  fact_df <- merge_dim dim_data fact_df "Dimlight" "lightid" ;;
  fact_df <- merge_dim dim_data fact_df "Dimtraffic_control" "trafficid" ;;
  fact_df <- merge_dim dim_data fact_df "Dimmax_injury" "injuryid" ;;
  ret (fact_df, dim_data).

(** The eight joins, in the order of the source: sheet and join column. *)
Definition joins : list (string * string) :=
  [ ("Dimlocation_type", "location_type_id");
    ("Dimclassification_of_accident", "Classificationid");
    ("Diminitial_impact_type", "impactid");
    ("Dimroad_surface_condition", "road_conditionid");
    ("Dimenvironment_condition", "environmentid");
    ("Dimlight", "lightid");
    ("Dimtraffic_control", "trafficid");
    ("Dimmax_injury", "injuryid") ].

(** The merge block as a loop over [joins]. *)
Fixpoint merge_all (dim_data : list (string * DataFrame))
    (js : list (string * string)) (fact_df : DataFrame) : result DataFrame :=
  match js with
  | [] => ret fact_df
  | (sheet, key) :: tl =>
      fact_df <- merge_dim dim_data fact_df sheet key ;;
      merge_all dim_data tl fact_df
  end.

(** What the script does besides computing: log lines and page elements. *)
Inductive level : Type := INFO | WARNING | ERROR.

Inductive event : Type :=
| Log (lv : level) (msg : string)     (* [logging.info], [logging.error] *)
| StError (msg : string)              (* [st.error] *)
| StStop                              (* [st.stop()]: the script run ends *)
| Render (what : string).             (* any element of the page below *)

(** [str(e)], as the f-string of the handler formats the exception. *)
Definition str (e : exn) : string :=
  match e with
  | FileNotFoundError path =>
      String.append "[Errno 2] No such file or directory: '"
                    (String.append path "'")
  | KeyError k => String.append "'" (String.append k "'")
  | ValueError msg => msg
  end.

(** [load_data()]: the value returned and the events emitted. *)
Definition load_data (fs : Files)
  : (DataFrame * list (string * DataFrame)) * list event :=
  match load_body fs with
  | inr (fact_df, dim_data) =>
      ((fact_df, dim_data),
       [Log INFO "Data loaded and merged successfully."])
  | inl e =>
      ((empty_frame, []),
       [Log ERROR (String.append "Error loading data: " (str e));
        StError "Failed to load data. Please check the log file for details."])
  end.

Section Session.

(** Everything below line 44: title, filters, KPIs, charts, map, tables. *)
Variable page : DataFrame -> list (string * DataFrame) -> list event.

(** Lines 41-44 and the rest of the script. *)
Definition session (fs : Files) : list event :=
  let '((df, dim_data), evs) := load_data fs in
  if empty df then evs ++ [StStop]
  else evs ++ page df dim_data.

End Session.

(** A lookup sheet has unique keys: no two rows carry the same cell in the
    join column. *)
Fixpoint distinct (l : list cell) : bool :=
  match l with
  | [] => true
  | x :: tl => negb (existsb (cell_eqb x) tl) && distinct tl
  end.

Definition unique_keys (key : string) (t : DataFrame) : bool :=
  match index_of key (columns t) with
  | Some i => distinct (map (at_col i) (rows t))
  | None => true
  end.

(** Every lookup sheet of the workbook that a join uses has unique keys. *)
Definition join_unique (dim_data : list (string * DataFrame))
    (j : string * string) : bool :=
  let '(sheet, key) := j in
  match lookup sheet dim_data with
  | Some t => unique_keys key t
  | None => true
  end.

Definition lookups_unique (dim_data : list (string * DataFrame)) : bool :=
  forallb (join_unique dim_data) joins.

(** The ways a load fails that the handler is there for: a file is not
    there; a sheet is not in the workbook; a join column is not in its
    lookup sheet; a join column is not in the fact table (nor brought in by
    a lookup sheet joined before); anything else the body raises. *)
Inductive load_failure (fs : Files) : Prop :=
| missing_fact_file : csv fs = None -> load_failure fs
| missing_workbook : xlsx fs = None -> load_failure fs
| missing_sheet : forall sheets sheet key,
    xlsx fs = Some sheets -> In (sheet, key) joins ->
    lookup sheet sheets = None -> load_failure fs
| missing_join_key : forall sheets sheet key t,
    xlsx fs = Some sheets -> In (sheet, key) joins ->
    lookup sheet sheets = Some t -> has_column key (columns t) = false ->
    load_failure fs
| missing_fact_key : forall fact sheets earlier sheet key later,
    csv fs = Some fact -> xlsx fs = Some sheets ->
    joins = earlier ++ (sheet, key) :: later ->
    has_column key (columns fact) = false ->
    (forall s k t, In (s, k) earlier -> lookup s sheets = Some t ->
                   has_column key (columns t) = false) ->
    load_failure fs
| other_failure : forall e, load_body fs = raise e -> load_failure fs.

End Loader.

(** ** The joined table as the dashboard reads it *)

Module Dashboard.

(** A parsed [accident_date]. *)
Record date : Type := mkDate { year : Z; month : Z; day : Z }.

(** One row of the joined table, with the columns the dashboard reads.  A
    column of labels has dtype object, a count is numeric, the date is a
    timestamp; [None] is the missing value of each (NaN, NaT). *)
Record Collision : Type := mkCollision {
  accident_date : option date;
  weekday : option string;
  location_type : option string;
  light : option string;
  initial_impact_type : option string;
  environment_condition : option string;
  road_surface_condition : option string;
  classification_of_accident : option string;
  num_of_injuries : option Z;
  num_of_pedestrians : option Z;
  num_of_vehicle : option Z;
  lat : option Q;
  long : option Q
}.

Definition Table : Type := list Collision.

(** [df.empty] and [len(df)] on a table whose columns are fixed. *)
Definition empty (df : Table) : bool :=
  match df with [] => true | _ :: _ => false end.

Definition len (df : Table) : nat := List.length df.

(** [series.dt.year]: the year of each timestamp, missing where it is. *)
Definition dt_year (s : list (option date)) : list (option Z) :=
  map (option_map year) s.

(** Membership of one entry in a list of values; a missing entry is in no
    list of values. *)
Definition among {A} (eqb : A -> A -> bool) (values : list A) (v : option A)
  : bool :=
  match v with
  | Some x => existsb (eqb x) values
  | None => false
  end.

(** [series.isin(values)] *)
Definition isin {A} (eqb : A -> A -> bool) (s : list (option A))
    (values : list A) : list bool :=
  map (among eqb values) s.

(** [df[mask]]: the rows whose mask entry is [True], in order. *)
Fixpoint getitem_mask (df : Table) (mask : list bool) : Table :=
  match df, mask with
  | r :: df', b :: mask' =>
      if b then r :: getitem_mask df' mask' else getitem_mask df' mask'
  | _, _ => []
  end.

(** Truth value of a list, as in [if selected_years:]. *)
Definition truthy {A} (l : list A) : bool :=
  match l with [] => false | _ :: _ => true end.

(** The sidebar's selections (lines 59-65). *)
Record Selection : Type := mkSelection {
  selected_years : list Z;
  selected_days : list string;
  selected_locations : list string;
  selected_lights : list string;
  selected_impacts : list string;
  selected_environments : list string;
  selected_surfaces : list string
}.

(** The map's own selections (lines 119-123). *)
Record MapSelection : Type := mkMapSelection {
  map_year : list Z;
  map_location : list string;
  map_light : list string;
  map_environment : list string;
  map_surface : list string
}.

(** Lines 67-81. *)
Definition filtered_df (df : Table) (S : Selection) : Table :=
  let filtered_df := df in
  let filtered_df :=
    if truthy (selected_years S)
    then getitem_mask filtered_df
           (isin Z.eqb (dt_year (map accident_date filtered_df)) (selected_years S))
    else filtered_df in
  let filtered_df :=
    if truthy (selected_days S)
    then getitem_mask filtered_df
           (isin String.eqb (map weekday filtered_df) (selected_days S))
    else filtered_df in
  let filtered_df :=
    if truthy (selected_locations S)
    then getitem_mask filtered_df
           (isin String.eqb (map location_type filtered_df) (selected_locations S))
    else filtered_df in
  let filtered_df :=
    if truthy (selected_lights S)
    then getitem_mask filtered_df
           (isin String.eqb (map light filtered_df) (selected_lights S))
    else filtered_df in
  let filtered_df :=
    if truthy (selected_impacts S)
    then getitem_mask filtered_df
           (isin String.eqb (map initial_impact_type filtered_df) (selected_impacts S))
    else filtered_df in
  let filtered_df :=
    if truthy (selected_environments S)
    then getitem_mask filtered_df
           (isin String.eqb (map environment_condition filtered_df)
                 (selected_environments S))
    else filtered_df in
  let filtered_df :=
    if truthy (selected_surfaces S)
    then getitem_mask filtered_df
           (isin String.eqb (map road_surface_condition filtered_df)
                 (selected_surfaces S))
    else filtered_df in
  filtered_df.

(** Lines 125-135. *)
Definition map_df (df : Table) (M : MapSelection) : Table :=
  let map_df := df in
  let map_df :=
    if truthy (map_year M)
    then getitem_mask map_df
           (isin Z.eqb (dt_year (map accident_date map_df)) (map_year M))
    else map_df in
  let map_df :=
    if truthy (map_location M)
    then getitem_mask map_df
           (isin String.eqb (map location_type map_df) (map_location M))
    else map_df in
  let map_df :=
    if truthy (map_light M)
    then getitem_mask map_df
           (isin String.eqb (map light map_df) (map_light M))
    else map_df in
  let map_df :=
    if truthy (map_environment M)
    then getitem_mask map_df
           (isin String.eqb (map environment_condition map_df) (map_environment M))
    else map_df in
  let map_df :=
    if truthy (map_surface M)
    then getitem_mask map_df
           (isin String.eqb (map road_surface_condition map_df) (map_surface M))
    else map_df in
  map_df.

(** *** The filter as the specification words it *)

(** The filterable attributes. *)
Inductive attribute : Type :=
| Year | Weekday | LocationType | Light | ImpactType | Environment | RoadSurface.

Definition attributes : list attribute :=
  [Year; Weekday; LocationType; Light; ImpactType; Environment; RoadSurface].

(** A selectable value: a year or a label. *)
Inductive value : Type :=
| VYear (y : Z)
| VLabel (s : string).

Definition value_eqb (a b : value) : bool :=
  match a, b with
  | VYear x, VYear y => Z.eqb x y
  | VLabel x, VLabel y => String.eqb x y
  | _, _ => false
  end.

(** The row's value for an attribute; for the year, the year component of
    the row's date. *)
Definition value_of (a : attribute) (r : Collision) : option value :=
  match a with
  | Year => option_map VYear (option_map year (accident_date r))
  | Weekday => option_map VLabel (weekday r)
  | LocationType => option_map VLabel (location_type r)
  | Light => option_map VLabel (light r)
  | ImpactType => option_map VLabel (initial_impact_type r)
  | Environment => option_map VLabel (environment_condition r)
  | RoadSurface => option_map VLabel (road_surface_condition r)
  end.

(** A selection in the specification's sense: a set of selected values per
    attribute. *)
Definition selection : Type := attribute -> list value.

Definition selected (S : Selection) : selection := fun a =>
  match a with
  | Year => map VYear (selected_years S)
  | Weekday => map VLabel (selected_days S)
  | LocationType => map VLabel (selected_locations S)
  | Light => map VLabel (selected_lights S)
  | ImpactType => map VLabel (selected_impacts S)
  | Environment => map VLabel (selected_environments S)
  | RoadSurface => map VLabel (selected_surfaces S)
  end.

(** The map offers no control for weekday and impact type. *)
Definition map_selected (M : MapSelection) : selection := fun a =>
  match a with
  | Year => map VYear (map_year M)
  | LocationType => map VLabel (map_location M)
  | Light => map VLabel (map_light M)
  | Environment => map VLabel (map_environment M)
  | RoadSurface => map VLabel (map_surface M)
  | Weekday | ImpactType => []
  end.

(** Specification of the result: a row is kept when, for each attribute with
    a non-empty selected set, its value is a member of the set. *)
Definition kept (sel : selection) (r : Collision) : Prop :=
  forall a, sel a <> [] ->
    exists v, value_of a r = Some v /\ In v (sel a).

(** The same test, computed: AND over the attributes of "no restriction OR
    member". *)
Definition member (vs : list value) (r : Collision) (a : attribute) : bool :=
  match value_of a r with
  | Some v => existsb (value_eqb v) vs
  | None => false
  end.

Definition keep (sel : selection) (r : Collision) : bool :=
  forallb (fun a => negb (truthy (sel a)) || member (sel a) r a) attributes.

(** [apply(table, selection)] of the specification. *)
Definition apply (T : Table) (sel : selection) : Table :=
  filter (keep sel) T.

(** One statement of the filter block, as a test on the row: either the
    selection is empty, or the column's entry is among the selected. *)
Definition passes {A} (eqb : A -> A -> bool) (sel : list A)
    (col : Collision -> option A) (r : Collision) : bool :=
  negb (truthy sel) || among eqb sel (col r).

(** [sel'] is [sel] with the value [v] added to the selected set of the
    attribute [a]. *)
Definition adds_value (sel sel' : selection) (a : attribute) (v : value)
  : Prop :=
  (forall x, In x (sel' a) <-> x = v \/ In x (sel a)) /\
  (forall b, b <> a -> sel' b = sel b).

(** Nothing is selected. *)
Definition no_selection : Selection := mkSelection [] [] [] [] [] [] [].
Definition no_map_selection : MapSelection := mkMapSelection [] [] [] [] [].

End Dashboard.

(** ** Objects: which frames the filter block creates and which it touches *)

Module Heap.
Import Dashboard.

(** Python variables hold references to frames.  The store maps a reference
    to the frame it denotes; a new object takes the next free reference. *)
Definition ref : Type := nat.
Definition store : Type := list Table.

Definition deref (s : store) (r : ref) : option Table := nth_error s r.

Definition alloc (t : Table) (s : store) : ref * store :=
  (List.length s, s ++ [t]).

(** [obj.copy()]: a new frame with the same content. *)
Definition copy (r : ref) (s : store) : option (ref * store) :=
  match deref s r with
  | Some t => Some (alloc t s)
  | None => None
  end.

(** [obj[mask_of(obj)]]: boolean indexing builds a new frame and leaves
    [obj] as it is. *)
Definition index_mask (mask_of : Table -> list bool) (r : ref) (s : store)
  : option (ref * store) :=
  match deref s r with
  | Some t => Some (alloc (getitem_mask t (mask_of t)) s)
  | None => None
  end.

(** One [if selected: filtered_df = filtered_df[...]] statement: the variable
    is rebound to the new frame when the selection is non-empty. *)
Definition narrow {A} (sel : list A) (mask_of : Table -> list bool)
    (st : option (ref * store)) : option (ref * store) :=
  match st with
  | Some (r, s) => if truthy sel then index_mask mask_of r s else Some (r, s)
  | None => None
  end.

(** Lines 67-81 on the store: [df] is the reference held by the variable
    [df]; the result is the reference bound to [filtered_df] at the end. *)
Definition run_filtered_df (df : ref) (S : Selection) (s : store)
  : option (ref * store) :=
  let st := copy df s in
  let st := narrow (selected_years S)
              (fun t => isin Z.eqb (dt_year (map accident_date t)) (selected_years S)) st in
  let st := narrow (selected_days S)
              (fun t => isin String.eqb (map weekday t) (selected_days S)) st in
  let st := narrow (selected_locations S)
              (fun t => isin String.eqb (map location_type t) (selected_locations S)) st in
  let st := narrow (selected_lights S)
              (fun t => isin String.eqb (map light t) (selected_lights S)) st in
  let st := narrow (selected_impacts S)
              (fun t => isin String.eqb (map initial_impact_type t) (selected_impacts S)) st in
  let st := narrow (selected_environments S)
              (fun t => isin String.eqb (map environment_condition t)
                              (selected_environments S)) st in
  let st := narrow (selected_surfaces S)
              (fun t => isin String.eqb (map road_surface_condition t)
                              (selected_surfaces S)) st in
  st.

(** The state after some statements of the block: the variable holds a
    frame created by the block, with content [t]; the objects that existed
    before are as they were. *)
Definition block_state (s : store) (t : Table) (st : option (ref * store))
  : Prop :=
  exists r ext,
    st = Some (r, s ++ ext) /\ deref (s ++ ext) r = Some t /\
    (List.length s <= r)%nat.

End Heap.

(** ** Summary figures *)

Module Summary.
Import Dashboard.

(** [series.dropna()] *)
Fixpoint dropna {A} (s : list (option A)) : list A :=
  match s with
  | [] => []
  | Some x :: tl => x :: dropna tl
  | None :: tl => dropna tl
  end.

(** Number of occurrences of a label. *)
Fixpoint count (x : string) (l : list string) : nat :=
  match l with
  | [] => O
  | y :: tl => if String.eqb x y then S (count x tl) else count x tl
  end.

(** The distinct labels, in order of first appearance. *)
Fixpoint unique (l : list string) : list string :=
  match l with
  | [] => []
  | x :: tl => x :: filter (fun y => negb (String.eqb x y)) (unique tl)
  end.

(** Ascending sort of labels; Python orders strings lexicographically by
    code point, which is the byte order of their UTF-8 encoding. *)
Fixpoint insert (x : string) (l : list string) : list string :=
  match l with
  | [] => [x]
  | y :: tl => if String.leb x y then x :: y :: tl else y :: insert x tl
  end.

Fixpoint sort (l : list string) : list string :=
  match l with
  | [] => []
  | x :: tl => insert x (sort tl)
  end.

(** [series.mode()]: the non-missing values that occur most often (all of
    them on a tie), sorted; empty when every entry is missing. *)
Definition mode (s : list (option string)) : list string :=
  let vals := dropna s in
  let labels := unique vals in
  let most := list_max (map (fun v => count v vals) labels) in
  sort (filter (fun v => Nat.eqb (count v vals) most) labels).

(** [series[0]] on the result of [mode()], whose index is 0, 1, ...:
    [KeyError] when there is no entry 0. *)
Definition getitem0 (s : list string) : result string :=
  match s with
  | [] => raise (KeyError "0")
  | x :: _ => ret x
  end.

(** Lines 158, 161, 164. *)
Definition top_day (filtered_df : Table) : result string :=
  if negb (empty filtered_df) then getitem0 (mode (map weekday filtered_df))
  else ret "N/A".

Definition top_light (filtered_df : Table) : result string :=
  if negb (empty filtered_df) then getitem0 (mode (map light filtered_df))
  else ret "N/A".

Definition top_surface (filtered_df : Table) : result string :=
  if negb (empty filtered_df)
  then getitem0 (mode (map road_surface_condition filtered_df))
  else ret "N/A".

(** [series.value_counts()]: each non-missing label with its number of
    occurrences, most frequent first.  pandas does not fix the order among
    labels with equal counts; here they stay in order of first appearance. *)
Fixpoint insert_desc (x : string * nat) (l : list (string * nat))
  : list (string * nat) :=
  match l with
  | [] => [x]
  | y :: tl => if Nat.leb (snd y) (snd x) then x :: y :: tl
               else y :: insert_desc x tl
  end.

Fixpoint sort_desc (l : list (string * nat)) : list (string * nat) :=
  match l with
  | [] => []
  | x :: tl => insert_desc x (sort_desc tl)
  end.

Definition value_counts (s : list (option string)) : list (string * nat) :=
  let vals := dropna s in
  sort_desc (map (fun v => (v, count v vals)) (unique vals)).

(** Entry of a counted series at a label. *)
Fixpoint loc (label : string) (vc : list (string * nat)) : option nat :=
  match vc with
  | [] => None
  | (k, n) :: tl => if String.eqb label k then Some n else loc label tl
  end.

(** [series.reindex(labels)] followed by [reset_index()]: one row per
    requested label, in the order requested; a label the series does not
    have gets the missing value, as no [fill_value] is passed. *)
Definition reindex (vc : list (string * nat)) (labels : list string)
  : list (string * option nat) :=
  map (fun l => (l, loc l vc)) labels.

Definition week : list string :=
  ["Monday"; "Tuesday"; "Wednesday"; "Thursday"; "Friday"; "Saturday"; "Sunday"].

(** Lines 110-113: the rows (Weekday, Count) of [weekday_counts]. *)
Definition weekday_counts (filtered_df : Table) : list (string * option nat) :=
  reindex (value_counts (map weekday filtered_df)) week.

(** The outcome of a numeric expression: a finite number, or one of the
    error values that numpy's division yields for a zero divisor. *)
Inductive number : Type :=
| Finite (q : Q)
| NaN
| Inf (negative : bool).

(** [series.sum()]: missing entries are skipped; 0 for no entries. *)
Fixpoint sum (s : list (option Z)) : Z :=
  match s with
  | [] => 0%Z
  | Some z :: tl => (z + sum tl)%Z
  | None :: tl => sum tl
  end.

(** [total / n] for a numpy total and a row count [n]: division by zero
    does not raise, it gives [nan] or an infinity. *)
Definition truediv (total : Z) (n : nat) : number :=
  match n with
  | O => if Z.eqb total 0 then NaN else Inf (Z.ltb total 0)
  | S _ => Finite (total # Pos.of_nat n)
  end.

(** Line 172. *)
Definition all_avg_injury_rate (df : Table) : number :=
  truediv (sum (map num_of_injuries df)) (len df).

(** Line 173. *)
Definition filtered_avg_injury_rate (filtered_df : Table) : number :=
  if Nat.ltb 0 (len filtered_df)
  then truediv (sum (map num_of_injuries filtered_df)) (len filtered_df)
  else Finite 0.

(** [m] is below every element of [l]. *)
Definition below (m : string) (l : list string) : Prop :=
  forall w, In w l -> String.leb m w = true.

(** The head of a list is its least element. *)
Definition head_least (l : list string) : Prop :=
  match l with
  | [] => True
  | m :: tl => below m tl
  end.

(** A value that occurs most often among the non-missing entries. *)
Definition most_frequent (v : string) (vals : list string) : Prop :=
  In v vals /\ forall w, (count w vals <= count v vals)%nat.

(** The outcome [res] is a label: a most frequent value of [vals], and the
    least of them in the order of labels. *)
Definition least_most_frequent (res : result string) (vals : list string)
  : Prop :=
  exists m,
    res = ret m /\ most_frequent m vals /\
    forall w, most_frequent w vals -> String.leb m w = true.

(** The count column after [reindex]: the number of occurrences of a label
    that occurs, the missing value for one that does not. *)
Definition counted (label : string) (vals : list string) : option nat :=
  match count label vals with
  | O => None
  | n => Some n
  end.

End Summary.

(** ** Shape of frames and the cells a join adds *)

Module Shape.
Import Frame.

(** Every row holds one cell per column. *)
Definition well_formed (df : DataFrame) : Prop :=
  Forall (fun r => List.length r = List.length (columns df)) (rows df).

(** The cells a left join appends to the left row [l]: those of the first
    lookup row with the same key, without the key; missing values when no
    lookup row has the key. *)
Definition joined_cells (li ri : nat) (right : DataFrame) (l : list cell)
  : list cell :=
  match find (fun r => cell_eqb (at_col li l) (at_col ri r)) (rows right) with
  | Some r => drop_nth ri r
  | None => repeat NA (List.length (columns right) - 1)
  end.

(** [o] is the row [l] with cells appended. *)
Definition extends (l o : list cell) : Prop := exists ext, o = l ++ ext.

End Shape.

(** ** Lists under a comparison: distinct values, counting, sorting *)

Module Order.

Section By.

Context {A : Type}.
Variable eqb : A -> A -> bool.
Variable leb : A -> A -> bool.

(** Number of occurrences of a value. *)
Fixpoint count_by (x : A) (l : list A) : nat :=
  match l with
  | [] => O
  | y :: tl => if eqb x y then S (count_by x tl) else count_by x tl
  end.

(** [series.unique()]: the distinct values, in order of first appearance. *)
Fixpoint unique_by (l : list A) : list A :=
  match l with
  | [] => []
  | x :: tl => x :: filter (fun y => negb (eqb x y)) (unique_by tl)
  end.

(** Ascending sort.  The lists sorted here hold distinct values, for which
    the sorted list does not depend on the sorting method. *)
Fixpoint insert_by (x : A) (l : list A) : list A :=
  match l with
  | [] => [x]
  | y :: tl => if leb x y then x :: y :: tl else y :: insert_by x tl
  end.

Fixpoint sort_by (l : list A) : list A :=
  match l with
  | [] => []
  | x :: tl => insert_by x (sort_by tl)
  end.

(** Ascending without repetition: each value is below the values after it
    and differs from them. *)
Definition strictly_ascending (l : list A) : Prop :=
  StronglySorted (fun a b => leb a b = true /\ a <> b) l.

End By.

End Order.

(** ** The options of the filter controls (lines 51-57) *)

Module Domains.
Import Dashboard Summary Order.

(** [sorted(df['accident_date'].dt.year.dropna().unique())] *)
Definition years (df : Table) : list Z :=
  sort_by Z.leb (unique_by Z.eqb (dropna (dt_year (map accident_date df)))).

(** [sorted(df[column].dropna().unique())] for a column of labels. *)
Definition options (col : Collision -> option string) (df : Table)
  : list string :=
  sort (unique (dropna (map col df))).

Definition days (df : Table) : list string := options weekday df.
Definition locations (df : Table) : list string := options location_type df.
Definition lights (df : Table) : list string := options light df.
Definition impacts (df : Table) : list string :=
  options initial_impact_type df.
Definition environments (df : Table) : list string :=
  options environment_condition df.
Definition surfaces (df : Table) : list string :=
  options road_surface_condition df.

(** The column behind each control of labels, and the selection that picks
    the given labels in that control and nothing else. *)
Inductive control : Type :=
| Days | Locations | Lights | Impacts | Environments | Surfaces.

Definition column (c : control) : Collision -> option string :=
  match c with
  | Days => weekday
  | Locations => location_type
  | Lights => light
  | Impacts => initial_impact_type
  | Environments => environment_condition
  | Surfaces => road_surface_condition
  end.

Definition pick (c : control) (labels : list string) : Selection :=
  match c with
  | Days => mkSelection [] labels [] [] [] [] []
  | Locations => mkSelection [] [] labels [] [] [] []
  | Lights => mkSelection [] [] [] labels [] [] []
  | Impacts => mkSelection [] [] [] [] labels [] []
  | Environments => mkSelection [] [] [] [] [] labels []
  | Surfaces => mkSelection [] [] [] [] [] [] labels
  end.

Definition pick_years (ys : list Z) : Selection :=
  mkSelection ys [] [] [] [] [] [].

(** The value is not missing. *)
Definition notna {A} (v : option A) : bool :=
  match v with Some _ => true | None => false end.

End Domains.

(** ** The page: KPIs, charts and summaries over [filtered_df] *)

Module Page.
Import Dashboard Summary Order.

(** [series.fillna(v)] *)
Definition fillna (v : Z) (s : list (option Z)) : list (option Z) :=
  map (fun x => match x with Some z => Some z | None => Some v end) s.

(** [series > c]: a missing entry compares false. *)
Definition series_gt (s : list (option Z)) (c : Z) : list bool :=
  map (fun x => match x with Some z => Z.ltb c z | None => false end) s.

(** [mask.sum()]: the number of [True] entries. *)
Fixpoint sum_mask (m : list bool) : nat :=
  match m with
  | [] => O
  | b :: tl => if b then S (sum_mask tl) else sum_mask tl
  end.

(** The four KPI values (lines 89-92). *)
Definition total_collisions (filtered_df : Table) : nat := len filtered_df.

Definition total_injuries (filtered_df : Table) : Z :=
  sum (fillna 0 (map num_of_injuries filtered_df)).

Definition pedestrian_involved (filtered_df : Table) : nat :=
  sum_mask (series_gt (map num_of_pedestrians filtered_df) 0).

Definition vehicles_involved (filtered_df : Table) : Z :=
  sum (fillna 0 (map num_of_vehicle filtered_df)).

(** The alert under the KPIs (lines 94-97). *)
Inductive alert : Type :=
| AlertError (msg : string)       (* [st.error] *)
| AlertWarning (msg : string).    (* [st.warning] *)

Definition kpi_alert (filtered_df : Table) : option alert :=
  if Z.ltb 200 (sum (map num_of_injuries filtered_df))
  then Some (AlertError "High Injury Alert: More than 200 injuries in filtered data!")
  else if Nat.ltb 1000 (len filtered_df)
  then Some (AlertWarning "High Volume: More than 1,000 collisions!")
  else None.

(** A calendar month: year and month. *)
Definition period : Type := (Z * Z)%type.

(** [series.dt.to_period("M")] on one timestamp. *)
Definition to_period_M (d : date) : period := (year d, month d).

Definition period_eqb (p q : period) : bool :=
  Z.eqb (fst p) (fst q) && Z.eqb (snd p) (snd q).

(** Chronological order of months. *)
Definition period_leb (p q : period) : bool :=
  Z.ltb (fst p) (fst q) || (Z.eqb (fst p) (fst q) && Z.leb (snd p) (snd q)).

(** [groupby(keys).size()]: one row per key that occurs, with its number of
    rows; keys ascending; rows with a missing key are left out. *)
Definition groupby_size (keys : list (option period)) : list (period * nat) :=
  let present := dropna keys in
  map (fun k => (k, count_by period_eqb k present))
      (sort_by period_leb (unique_by period_eqb present)).

(** Line 104: the rows (month, Collisions) of [monthly]. *)
Definition monthly (filtered_df : Table) : list (period * nat) :=
  groupby_size (map (option_map to_period_M) (map accident_date filtered_df)).

(** The collision is dated in the month [p]. *)
Definition in_month (p : period) (r : Collision) : bool :=
  match accident_date r with
  | Some d => period_eqb p (to_period_M d)
  | None => false
  end.

(** The entry of a count column, a missing entry counting as nothing. *)
Definition count_or_zero (c : option nat) : nat :=
  match c with Some n => n | None => O end.

(** The column has an entry that is not missing. *)
Definition has_value (col : Collision -> option string) (df : Table) : Prop :=
  dropna (map col df) <> [].

(** No collision has a negative number of injuries. *)
Definition injuries_nonnegative (df : Table) : Prop :=
  forall r n, In r df -> num_of_injuries r = Some n -> (0 <= n)%Z.

(** Line 145: the rows (Classification, Count) of [impact_count]. *)
Definition impact_count (filtered_df : Table) : list (string * nat) :=
  value_counts (map classification_of_accident filtered_df).

(** What the page shows in one of its blocks. *)
Inductive element : Type :=
| Subheader (title : string)
| Metric (label value : string)       (* [st.metric] *)
| LogWarning (msg : string).          (* [logging.warning] *)

(** [str(e)] in the handler of the summary block: the [KeyError] that
    [mode()[0]] raises carries the integer label 0, printed bare. *)
Definition str_label (e : exn) : string :=
  match e with
  | KeyError k => k
  | other => Loader.str other
  end.

Definition insight_error (e : exn) : element :=
  LogWarning (String.append "Insight summary error: " (str_label e)).

(** Lines 154-167: the three metrics are computed and shown one after the
    other inside one [try]; the first exception ends the block. *)
Definition insight_summary (filtered_df : Table) : list element :=
  Subheader "Key Conditions Summary" ::
  match top_day filtered_df with
  | inl e => [insight_error e]
  | inr day =>
      Metric "Most Frequent Day" day ::
      match top_light filtered_df with
      | inl e => [insight_error e]
      | inr l =>
          Metric "Most Common Light Condition" l ::
          match top_surface filtered_df with
          | inl e => [insight_error e]
          | inr s => [Metric "Top Road Surface" s]
          end
      end
  end.

(** Arithmetic on outcomes, with the error values of IEEE arithmetic. *)
Definition number_sub (a b : number) : number :=
  match a, b with
  | Finite x, Finite y => Finite (x - y)
  | NaN, _ | _, NaN => NaN
  | Inf s, Finite _ => Inf s
  | Finite _, Inf s => Inf (negb s)
  | Inf s, Inf t => if Bool.eqb s t then NaN else Inf s
  end.

Definition number_neg (a : number) : number :=
  match a with
  | Finite x => Finite (- x)
  | NaN => NaN
  | Inf s => Inf (negb s)
  end.

(** [a > 0] and [a < 0]; both are false for [nan]. *)
Definition gt0 (a : number) : bool :=
  match a with
  | Finite x => negb (Qle_bool x 0)
  | NaN => false
  | Inf s => negb s
  end.

Definition lt0 (a : number) : bool :=
  match a with
  | Finite x => negb (Qle_bool 0 x)
  | NaN => false
  | Inf s => s
  end.

(** Line 174. *)
Definition injury_diff (df filtered_df : Table) : number :=
  number_sub (filtered_avg_injury_rate filtered_df) (all_avg_injury_rate df).

(** Lines 177-182: which message closes the comparison, with the number it
    prints. *)
Inductive note : Type :=
| Higher (by_ : number)    (* [st.success]: rate is ... higher than average *)
| Lower (by_ : number)     (* [st.warning]: rate is ... lower than average *)
| Matches.                 (* [st.info]: rate matches the overall average *)

Definition comparison (df filtered_df : Table) : note :=
  let injury_diff := injury_diff df filtered_df in
  if gt0 injury_diff then Higher injury_diff
  else if lt0 injury_diff then Lower (number_neg injury_diff)
  else Matches.

End Page.

(** ** Sample inputs *)

Module Samples.
Import Frame Loader Dashboard.

(** A collision of which only the weekday is recorded. *)
Definition on_day (d : option string) : Collision :=
  mkCollision None d None None None None None None None None None None None.

(** A selection of weekdays only. *)
Definition only_days (days : list string) : Selection :=
  mkSelection [] days [] [] [] [] [].

(** A small input on which the load succeeds: two collisions, eight lookup
    sheets with unique identifiers. *)
Definition demo_fact : DataFrame :=
  mkFrame
    ["accident_date"; "weekday"; "location_type_id"; "Classificationid";
     "impactid"; "road_conditionid"; "environmentid"; "lightid"; "trafficid";
     "injuryid"]
    [ [Date 2019 3 4; Str "Monday"; Num 1; Num 1; Num 2; Num 1; Num 1; Num 2;
       Num 1; Num 1];
      [Date 2020 7 9; Str "Thursday"; Num 2; Num 2; Num 1; NA; Num 7; Num 1;
       Num 1; Num 2] ].

Definition demo_sheet (key label a b : string) : DataFrame :=
  mkFrame [key; label] [ [Num 1; Str a]; [Num 2; Str b] ].

Definition demo_sheets : list (string * DataFrame) :=
  [ ("Dimlocation_type",
     demo_sheet "location_type_id" "location_type" "Intersection" "Midblock");
    ("Dimclassification_of_accident",
     demo_sheet "Classificationid" "classification_of_accident"
                "P.D. only" "Non-fatal injury");
    ("Diminitial_impact_type",
     demo_sheet "impactid" "initial_impact_type" "Rear end" "Angle");
    ("Dimroad_surface_condition",
     demo_sheet "road_conditionid" "road_surface_condition" "Dry" "Wet");
    ("Dimenvironment_condition",
     demo_sheet "environmentid" "environment_condition" "Clear" "Rain");
    ("Dimlight", demo_sheet "lightid" "light" "Daylight" "Dark");
    ("Dimtraffic_control",
     demo_sheet "trafficid" "traffic_control" "Stop sign" "Traffic signal");
    ("Dimmax_injury", demo_sheet "injuryid" "max_injury" "None" "Minor") ].

Definition demo_files : Files := mkFiles (Some demo_fact) (Some demo_sheets).

(** A collision of which only the number of injuries is recorded. *)
Definition with_injuries (n : option Z) : Collision :=
  mkCollision None None None None None None None None n None None None None.

(** A collision of which only the date is recorded. *)
Definition dated (y m d : Z) : Collision :=
  mkCollision (Some (mkDate y m d)) None None None None None None None None
              None None None None.

(** A collision with weekday, light and road surface. *)
Definition observed (d l s : option string) : Collision :=
  mkCollision None d None l None None s None None None None None None.

(** The workbook of [demo_sheets] with a location sheet that repeats the
    identifier 1. *)
Definition repeating_sheets : list (string * DataFrame) :=
  ("Dimlocation_type",
   mkFrame ["location_type_id"; "location_type"]
           [[Num 1; Str "Intersection"]; [Num 1; Str "Junction"]])
    :: tl demo_sheets.

Definition repeating_files : Files :=
  mkFiles (Some demo_fact) (Some repeating_sheets).

End Samples.

(** * Properties *)

(** ** The loader *)

Import Frame Loader Samples.

Lemma bind_ret_inv {A B} (m : result A) (k : A -> result B) (b : B) :
  bind m k = ret b -> exists a, m = ret a /\ k a = ret b.
Proof.
  destruct m as [e | a]; simpl; intros H.
  - discriminate H.
  - exists a. split; [reflexivity | exact H].
Qed.

Lemma cell_eqb_eq (a b : cell) : cell_eqb a b = true <-> a = b.
Proof.
  destruct a, b; simpl; split; intros H;
    try discriminate H; try reflexivity.
  - apply Z.eqb_eq in H. now subst.
  - injection H as ->. apply Z.eqb_refl.
  - apply String.eqb_eq in H. now subst.
  - injection H as ->. apply String.eqb_refl.
  - apply andb_true_iff in H as [H Hd].
    apply andb_true_iff in H as [Hy Hm].
    apply Z.eqb_eq in Hy, Hm, Hd. now subst.
  - injection H as -> -> ->. now rewrite !Z.eqb_refl.
Qed.

(** In a list of distinct cells, a cell has at most one partner. *)
Lemma distinct_matches (c : cell) (l : list cell) :
  distinct l = true -> (List.length (filter (cell_eqb c) l) <= 1)%nat.
Proof.
  induction l as [| x tl IH]; simpl; intros H.
  - lia.
  - apply andb_true_iff in H as [Hx Htl].
    destruct (cell_eqb c x) eqn:Hc.
    + apply cell_eqb_eq in Hc. subst x.
      apply negb_true_iff in Hx.
      assert (Hnone : filter (cell_eqb c) tl = []).
      { clear IH Htl. induction tl as [| y tl IH]; simpl in *.
        - reflexivity.
        - apply orb_false_iff in Hx as [Hy Hx].
          rewrite Hy. now apply IH. }
      rewrite Hnone. simpl. lia.
    + now apply IH.
Qed.

Lemma filter_at_col (c : cell) (i : nat) (rs : list (list cell)) :
  List.length (filter (fun r => cell_eqb c (at_col i r)) rs)
  = List.length (filter (cell_eqb c) (map (at_col i) rs)).
Proof.
  induction rs as [| r rs IH]; simpl.
  - reflexivity.
  - destruct (cell_eqb c (at_col i r)); simpl; now rewrite IH.
Qed.

(** A left row with at most one partner contributes exactly one row. *)
Lemma join_row_one (li ri : nat) (right : DataFrame) (l : list cell) :
  distinct (map (at_col ri) (rows right)) = true ->
  List.length (join_row li ri right l) = 1%nat.
Proof.
  intros Hd. unfold join_row.
  pose proof (distinct_matches (at_col li l) _ Hd) as Hle.
  rewrite <- filter_at_col in Hle.
  destruct (filter _ (rows right)) as [| m [| m' ms]]; simpl in *;
    [reflexivity | reflexivity | lia].
Qed.

(** A left join against a lookup frame with unique keys keeps the number
    of rows. *)
Lemma merge_len (left right out : DataFrame) (key : string) :
  unique_keys key right = true ->
  merge left right key = ret out ->
  Frame.len out = Frame.len left.
Proof.
  unfold merge, key_index, unique_keys. intros Hu Hm.
  destruct (index_of key (columns left)) as [li |]; [| discriminate Hm].
  destruct (index_of key (columns right)) as [ri |]; [| discriminate Hm].
  simpl in Hm. injection Hm as <-.
  unfold Frame.len. simpl.
  induction (rows left) as [| l ls IH]; simpl.
  - reflexivity.
  - rewrite length_app, IH, (join_row_one li ri right l Hu). reflexivity.
Qed.

Lemma merge_all_len dim_data js : forall fact_df out,
  forallb (join_unique dim_data) js = true ->
  merge_all dim_data js fact_df = ret out ->
  Frame.len out = Frame.len fact_df.
Proof.
  induction js as [| [sheet key] js IH]; simpl; intros fact_df out Hu Hm.
  - injection Hm as <-. reflexivity.
  - apply andb_true_iff in Hu as [Hj Hjs].
    apply bind_ret_inv in Hm as (mid & Hmid & Hrest).
    unfold merge_dim, getitem in Hmid.
    destruct (lookup sheet dim_data) as [t |]; [| discriminate Hmid].
    simpl in Hmid.
    rewrite (IH _ _ Hjs Hrest).
    now apply (merge_len _ t _ key).
Qed.

(** The merge block of [load_body] is the loop over [joins]. *)
Lemma load_body_loop (fs : Files) :
  load_body fs =
  (fact_df <- read_csv fs ;;
   dim_data <- read_excel fs ;;
   fact_df <- merge_all dim_data joins fact_df ;;
   ret (fact_df, dim_data)).
Proof.
  unfold load_body.
  destruct (read_csv fs) as [e | fact_df]; [reflexivity |].
  destruct (read_excel fs) as [e | dim_data]; [reflexivity |].
  simpl.
  repeat match goal with
         | |- context [merge_dim ?d ?f ?s ?k] =>
             destruct (merge_dim d f s k) as [? | ?]; [reflexivity |]; simpl
         end.
  reflexivity.
Qed.

(** C2. When every lookup sheet has unique keys (a key of the fact table
    matches at most one lookup row), the table produced by the eight left
    joins of [load_data] has exactly as many rows as the fact table read. *)
Theorem load_preserves_row_count (fs : Files) (fact : DataFrame)
    (sheets : list (string * DataFrame)) (df : DataFrame)
    (dim_data : list (string * DataFrame)) :
  csv fs = Some fact ->
  xlsx fs = Some sheets ->
  lookups_unique sheets = true ->
  load_body fs = ret (df, dim_data) ->
  Frame.len df = Frame.len fact.
Proof.
  intros Hcsv Hxlsx Hu Hload.
  rewrite load_body_loop in Hload.
  apply bind_ret_inv in Hload as (fact' & Hread & Hload).
  apply bind_ret_inv in Hload as (dd & Hexcel & Hload).
  apply bind_ret_inv in Hload as (out & Hmerge & Hret).
  injection Hret as <- <-.
  unfold read_csv in Hread. rewrite Hcsv in Hread.
  destruct (has_column _ _); [| discriminate Hread].
  injection Hread as <-.
  unfold read_excel in Hexcel. rewrite Hxlsx in Hexcel.
  injection Hexcel as <-.
  exact (merge_all_len sheets joins fact out Hu Hmerge).
Qed.

Lemma load_preserves_row_count_witness :
  exists df dim_data,
    load_body demo_files = ret (df, dim_data) /\
    Frame.len df = Frame.len demo_fact.
Proof.
  eexists. eexists. split.
  - vm_compute. reflexivity.
  - apply (load_preserves_row_count demo_files demo_fact demo_sheets _ demo_sheets).
    + reflexivity.
    + reflexivity.
    + vm_compute. reflexivity.
    + vm_compute. reflexivity.
Defined.

(** The precondition matters: a lookup sheet that repeats an identifier
    repeats the fact rows that carry it. *)
Example duplicate_key_duplicates_rows :
  merge (mkFrame ["lightid"] [[Num 1]])
        (mkFrame ["lightid"; "light"] [[Num 1; Str "Dark"]; [Num 1; Str "Dusk"]])
        "lightid"
  = ret (mkFrame ["lightid"; "light"]
                 [[Num 1; Str "Dark"]; [Num 1; Str "Dusk"]]).
Proof. reflexivity. Qed.

(** *** Failing loads *)

Lemma bind_raises_l {A B} (m : result A) (k : A -> result B) :
  raises m -> raises (bind m k).
Proof. intros [e ->]. exists e. reflexivity. Qed.

Lemma bind_raises_r {A B} (m : result A) (k : A -> result B) :
  (forall a, raises (k a)) -> raises (bind m k).
Proof.
  intros Hk. destruct m as [e | a]; simpl.
  - exists e. reflexivity.
  - apply Hk.
Qed.

(** A join whose sheet is not in the workbook raises. *)
Lemma merge_dim_no_sheet dim_data fact_df sheet key :
  lookup sheet dim_data = None ->
  raises (merge_dim dim_data fact_df sheet key).
Proof.
  intros H. unfold merge_dim, getitem. rewrite H.
  exists (KeyError sheet). reflexivity.
Qed.

(** A join whose sheet lacks the join column raises. *)
Lemma merge_dim_no_key dim_data fact_df sheet key t :
  lookup sheet dim_data = Some t ->
  has_column key (columns t) = false ->
  raises (merge_dim dim_data fact_df sheet key).
Proof.
  intros Hs Hk. unfold merge_dim, getitem. rewrite Hs. simpl.
  unfold merge. apply bind_raises_r. intros li.
  apply bind_raises_l. unfold key_index.
  unfold has_column in Hk.
  destruct (index_of key (columns t)); [discriminate Hk |].
  exists (KeyError key). reflexivity.
Qed.

(** One failing join fails the whole loop, whatever the joins before it
    produce. *)
Lemma merge_all_raises dim_data sheet key js :
  In (sheet, key) js ->
  (forall fact_df, raises (merge_dim dim_data fact_df sheet key)) ->
  forall fact_df, raises (merge_all dim_data js fact_df).
Proof.
  intros Hin Hfail.
  induction js as [| [s k] js IH]; simpl; intros fact_df.
  - contradiction.
  - destruct Hin as [Heq | Hin].
    + injection Heq as -> ->. apply bind_raises_l, Hfail.
    + apply bind_raises_r. intros mid. now apply IH.
Qed.

Lemma load_body_raises_join fs sheets sheet key :
  xlsx fs = Some sheets ->
  In (sheet, key) joins ->
  (forall fact_df, raises (merge_dim sheets fact_df sheet key)) ->
  raises (load_body fs).
Proof.
  intros Hx Hin Hfail. rewrite load_body_loop.
  apply bind_raises_r. intros fact_df.
  unfold read_excel. rewrite Hx.
  change (raises (fact_df <- merge_all sheets joins fact_df ;;
                  ret (fact_df, sheets))).
  apply bind_raises_l.
  exact (merge_all_raises sheets sheet key joins Hin Hfail fact_df).
Qed.

(** *** A join column that the fact table lacks *)

Lemma has_column_In (c : string) (cols : list string) :
  has_column c cols = true <-> In c cols.
Proof.
  unfold has_column. induction cols as [| x cols IH]; simpl.
  - split; [discriminate | tauto].
  - destruct (String.eqb_spec c x) as [-> | Hne].
    + split; [now left | reflexivity].
    + destruct (index_of c cols); simpl in *.
      * split; [right; now apply IH | reflexivity].
      * split; [discriminate |].
        intros [H | H]; [congruence | now apply IH].
Qed.

Lemma ends_with_append (c sfx : string) :
  ends_with sfx (String.append c sfx) = true.
Proof.
  induction c as [| a c IH].
  - destruct sfx; cbn [String.append ends_with];
      rewrite String.eqb_refl; reflexivity.
  - cbn [String.append ends_with]. rewrite IH. apply orb_true_r.
Qed.

Lemma drop_nth_In {A} (i : nat) (l : list A) (x : A) :
  In x (drop_nth i l) -> In x l.
Proof.
  revert i. induction l as [| y l IH]; intros [| i]; simpl; try tauto.
  intros [H | H]; [now left | right; now apply (IH i)].
Qed.

(** A suffixed label is the label itself or ends with the suffix. *)
Lemma suffixed_inv (sfx : string) (others : list string) (key c k : string) :
  suffixed sfx others key c = k -> ends_with sfx k = false -> c = k.
Proof.
  unfold suffixed. destruct (_ && _); intros <- H; [| reflexivity].
  now rewrite ends_with_append in H.
Qed.

(** A merge brings in no label that neither side had, up to suffixes. *)
Lemma merged_columns_has (k key : string) (ri : nat) (lc rc : list string) :
  ends_with "_x" k = false -> ends_with "_y" k = false ->
  has_column k lc = false -> has_column k rc = false ->
  has_column k (merged_columns key ri lc rc) = false.
Proof.
  intros Hx Hy Hl Hr.
  destruct (has_column k (merged_columns key ri lc rc)) eqn:H; [| reflexivity].
  apply has_column_In in H. unfold merged_columns in H.
  apply in_app_or in H as [H | H]; apply in_map_iff in H as (c & Hc & Hin).
  - apply suffixed_inv in Hc; [subst c | exact Hx].
    apply has_column_In in Hin. congruence.
  - apply suffixed_inv in Hc; [subst c | exact Hy].
    apply drop_nth_In, has_column_In in Hin. congruence.
Qed.

Lemma merge_dim_keeps_lacking dim_data fact_df sheet key k out :
  ends_with "_x" k = false -> ends_with "_y" k = false ->
  has_column k (columns fact_df) = false ->
  (forall t, lookup sheet dim_data = Some t ->
             has_column k (columns t) = false) ->
  merge_dim dim_data fact_df sheet key = ret out ->
  has_column k (columns out) = false.
Proof.
  intros Hx Hy Hl Hr Hm. unfold merge_dim, getitem in Hm.
  destruct (lookup sheet dim_data) as [t |]; [| discriminate Hm].
  simpl in Hm. unfold merge, key_index in Hm.
  destruct (index_of key (columns fact_df)); [| discriminate Hm].
  destruct (index_of key (columns t)); [| discriminate Hm].
  simpl in Hm. injection Hm as <-. simpl.
  apply merged_columns_has; auto.
Qed.

Lemma merge_dim_no_fact_key dim_data fact_df sheet key :
  has_column key (columns fact_df) = false ->
  raises (merge_dim dim_data fact_df sheet key).
Proof.
  intros Hk. unfold merge_dim. apply bind_raises_r. intros t.
  unfold merge. apply bind_raises_l. unfold key_index.
  unfold has_column in Hk.
  destruct (index_of key (columns fact_df)); [discriminate Hk |].
  exists (KeyError key). reflexivity.
Qed.

Lemma merge_all_no_fact_key dim_data earlier sheet key later :
  ends_with "_x" key = false -> ends_with "_y" key = false ->
  (forall s k t, In (s, k) earlier -> lookup s dim_data = Some t ->
                 has_column key (columns t) = false) ->
  forall fact_df,
    has_column key (columns fact_df) = false ->
    raises (merge_all dim_data (earlier ++ (sheet, key) :: later) fact_df).
Proof.
  intros Hx Hy.
  induction earlier as [| [s k] earlier IH]; simpl; intros Hsheets fact_df Hk.
  - apply bind_raises_l. now apply merge_dim_no_fact_key.
  - destruct (merge_dim dim_data fact_df s k) as [e | mid] eqn:Hm.
    + exists e. reflexivity.
    + simpl. apply IH.
      * intros s' k' t Hin. apply (Hsheets s' k' t). now right.
      * apply (merge_dim_keeps_lacking dim_data fact_df s k key mid); auto.
        intros t. apply (Hsheets s k t). now left.
Qed.

Lemma joins_no_suffix (sheet key : string) :
  In (sheet, key) joins ->
  ends_with "_x" key = false /\ ends_with "_y" key = false.
Proof.
  intros Hin.
  assert (H : forallb (fun j => negb (ends_with "_x" (snd j))
                                && negb (ends_with "_y" (snd j))) joins = true)
    by reflexivity.
  rewrite forallb_forall in H. specialize (H _ Hin). simpl in H.
  apply andb_true_iff in H as [H1 H2].
  now apply negb_true_iff in H1, H2.
Qed.

(** Each kind of failure makes the [try] body raise. *)
Lemma load_failure_raises (fs : Files) :
  load_failure fs -> raises (load_body fs).
Proof.
  intros [Hcsv | Hxlsx | sheets sheet key Hx Hin Hs
          | sheets sheet key t Hx Hin Hs Hk
          | fact sheets earlier sheet key later Hcsv Hx Hj Hk Hearlier
          | e He].
  - unfold load_body. apply bind_raises_l.
    unfold read_csv. rewrite Hcsv.
    exists (FileNotFoundError fact_path). reflexivity.
  - unfold load_body. apply bind_raises_r. intros fact_df.
    apply bind_raises_l. unfold read_excel. rewrite Hxlsx.
    exists (FileNotFoundError dim_path). reflexivity.
  - apply (load_body_raises_join fs sheets sheet key Hx Hin).
    intros fact_df. now apply merge_dim_no_sheet.
  - apply (load_body_raises_join fs sheets sheet key Hx Hin).
    intros fact_df. now apply (merge_dim_no_key _ _ _ _ t).
  - assert (Hin : In (sheet, key) joins).
    { rewrite Hj. apply in_elt. }
    destruct (joins_no_suffix sheet key Hin) as [Hsx Hsy].
    rewrite load_body_loop. unfold read_csv, read_excel.
    rewrite Hcsv, Hx.
    destruct (has_column "accident_date" (columns fact));
      [| eexists; reflexivity].
    change (raises (fact_df <- merge_all sheets joins fact ;;
                    ret (fact_df, sheets))).
    apply bind_raises_l. rewrite Hj.
    now apply merge_all_no_fact_key.
  - exists e. exact He.
Qed.

(** C3. A failing load (missing file, missing sheet, missing join key, or
    anything else the [try] body raises) is reported with its cause in an
    error log entry and a page error, yields no table (the empty frame and
    no lookup tables), and the session stops; the session also stops after
    a load that yields an empty table.  Nothing is rendered in either
    case. *)
Theorem failed_or_empty_load_is_terminal
    (page : DataFrame -> list (string * DataFrame) -> list event)
    (fs : Files) :
  load_failure fs \/ Frame.empty (fst (fst (load_data fs))) = true ->
  session page fs = snd (load_data fs) ++ [StStop] /\
  (forall what, ~ In (Render what) (session page fs)) /\
  (load_failure fs ->
   exists e,
     load_body fs = raise e /\
     load_data fs =
       ((empty_frame, []),
        [Log ERROR (String.append "Error loading data: " (str e));
         StError "Failed to load data. Please check the log file for details."])).
Proof.
  intros H.
  assert (Hempty : Frame.empty (fst (fst (load_data fs))) = true).
  { destruct H as [Hf | He]; [| exact He].
    apply load_failure_raises in Hf as [e He].
    unfold load_data. rewrite He. reflexivity. }
  assert (Hstop : session page fs = snd (load_data fs) ++ [StStop]).
  { unfold session. destruct (load_data fs) as [[df dd] evs].
    simpl in *. now rewrite Hempty. }
  split; [exact Hstop |]. split.
  - intros what Hin. rewrite Hstop in Hin.
    unfold load_data in Hin.
    destruct (load_body fs) as [e | [df dd]]; simpl in Hin;
      intuition discriminate.
  - intros Hf. apply load_failure_raises in Hf as [e He].
    exists e. split; [exact He |].
    unfold load_data. rewrite He. reflexivity.
Qed.

Lemma failed_or_empty_load_is_terminal_witness :
  load_failure (mkFiles (Some demo_fact) (Some (tl demo_sheets))) /\
  session (fun _ _ => [Render "title"])
          (mkFiles (Some demo_fact) (Some (tl demo_sheets)))
  = [Log ERROR "Error loading data: 'Dimlocation_type'";
     StError "Failed to load data. Please check the log file for details.";
     StStop].
Proof.
  assert (Hf : load_failure (mkFiles (Some demo_fact) (Some (tl demo_sheets)))).
  { apply (missing_sheet _ (tl demo_sheets) "Dimlocation_type" "location_type_id").
    - reflexivity.
    - simpl. left. reflexivity.
    - reflexivity. }
  split; [exact Hf |].
  exact (proj1 (failed_or_empty_load_is_terminal
                  (fun _ _ => [Render "title"])
                  (mkFiles (Some demo_fact) (Some (tl demo_sheets)))
                  (or_introl Hf))).
Defined.

(** The log line names the cause: the missing file, or the join column that
    a lookup sheet lacks. *)
Example missing_file_logged :
  load_data (mkFiles None (Some demo_sheets))
  = ((empty_frame, []),
     [Log ERROR
        "Error loading data: [Errno 2] No such file or directory: 'Data/Cleaned_Traffic_Data.csv'";
      StError "Failed to load data. Please check the log file for details."]).
Proof. reflexivity. Qed.

Example missing_key_logged :
  load_data
    (mkFiles (Some demo_fact)
             (Some (("Dimlocation_type", mkFrame ["id"; "location_type"] [])
                      :: tl demo_sheets)))
  = ((empty_frame, []),
     [Log ERROR "Error loading data: 'location_type_id'";
      StError "Failed to load data. Please check the log file for details."]).
Proof. reflexivity. Qed.

(** A fact file with a header and no rows loads, and the session stops all
    the same. *)
Example empty_load_stops :
  session (fun _ _ => [Render "title"])
          (mkFiles (Some (mkFrame (columns demo_fact) [])) (Some demo_sheets))
  = [Log INFO "Data loaded and merged successfully."; StStop].
Proof. reflexivity. Qed.

(** ** The filter *)

Import Dashboard.

(** Indexing with a mask computed row by row is [filter]. *)
Lemma getitem_mask_map (f : Collision -> bool) (df : Table) :
  getitem_mask df (map f df) = filter f df.
Proof.
  induction df as [| r df IH]; simpl.
  - reflexivity.
  - destruct (f r); now rewrite IH.
Qed.

Lemma narrow_filter {A} (eqb : A -> A -> bool) (sel : list A)
    (col : Collision -> option A) (df : Table) :
  (if truthy sel then getitem_mask df (isin eqb (map col df) sel) else df)
  = filter (passes eqb sel col) df.
Proof.
  unfold passes, isin. destruct (truthy sel); simpl.
  - rewrite map_map. apply getitem_mask_map.
  - induction df as [| r df IH]; simpl; [reflexivity | now rewrite <- IH].
Qed.

Lemma narrow_year_filter (sel : list Z) (df : Table) :
  (if truthy sel
   then getitem_mask df (isin Z.eqb (dt_year (map accident_date df)) sel)
   else df)
  = filter (passes Z.eqb sel (fun r => option_map year (accident_date r))) df.
Proof.
  unfold dt_year. rewrite map_map.
  apply (narrow_filter Z.eqb sel (fun r => option_map year (accident_date r))).
Qed.

Lemma filter_filter {A} (f g : A -> bool) (l : list A) :
  filter g (filter f l) = filter (fun x => f x && g x) l.
Proof.
  induction l as [| x l IH]; simpl.
  - reflexivity.
  - destruct (f x); simpl; [destruct (g x) |]; now rewrite IH.
Qed.

Lemma filter_idem {A} (f : A -> bool) (l : list A) :
  filter f (filter f l) = filter f l.
Proof.
  rewrite filter_filter. apply filter_ext.
  intros x. now destruct (f x).
Qed.

Lemma truthy_map {A B} (f : A -> B) (l : list A) :
  truthy (map f l) = truthy l.
Proof. now destruct l. Qed.

Lemma among_year (ys : list Z) (d : option Z) :
  among value_eqb (map VYear ys) (option_map VYear d) = among Z.eqb ys d.
Proof.
  destruct d as [y |]; simpl; [| reflexivity].
  induction ys as [| x ys IH]; simpl; [reflexivity | now rewrite IH].
Qed.

Lemma among_label (ls : list string) (v : option string) :
  among value_eqb (map VLabel ls) (option_map VLabel v) = among String.eqb ls v.
Proof.
  destruct v as [s |]; simpl; [| reflexivity].
  induction ls as [| x ls IH]; simpl; [reflexivity | now rewrite IH].
Qed.

Lemma member_among (vs : list value) (r : Collision) (a : attribute) :
  member vs r a = among value_eqb vs (value_of a r).
Proof. reflexivity. Qed.

(** The filter block keeps the rows that the specification's test keeps. *)
Lemma filtered_df_apply (T : Table) (S : Selection) :
  filtered_df T S = apply T (selected S).
Proof.
  unfold filtered_df, apply.
  rewrite narrow_year_filter. rewrite !narrow_filter. rewrite !filter_filter.
  apply filter_ext. intros r.
  unfold keep, attributes, forallb, passes.
  rewrite !member_among. unfold selected, value_of.
  rewrite !truthy_map, among_year, !among_label.
  rewrite andb_true_r, !andb_assoc. reflexivity.
Qed.

Lemma map_df_apply (T : Table) (M : MapSelection) :
  map_df T M = apply T (map_selected M).
Proof.
  unfold map_df, apply.
  rewrite narrow_year_filter. rewrite !narrow_filter. rewrite !filter_filter.
  apply filter_ext. intros r.
  unfold keep, attributes, forallb, passes.
  rewrite !member_among. unfold map_selected, value_of.
  rewrite !truthy_map, among_year, !among_label.
  simpl. rewrite andb_true_r, !andb_assoc. reflexivity.
Qed.

Lemma value_eqb_eq (a b : value) : value_eqb a b = true <-> a = b.
Proof.
  destruct a, b; simpl; split; intros H; try discriminate H.
  - apply Z.eqb_eq in H. now subst.
  - injection H as ->. apply Z.eqb_refl.
  - apply String.eqb_eq in H. now subst.
  - injection H as ->. apply String.eqb_refl.
Qed.

Lemma truthy_true {A} (l : list A) : truthy l = true <-> l <> [].
Proof. destruct l; simpl; split; intros H; congruence. Qed.

Lemma member_true (vs : list value) (r : Collision) (a : attribute) :
  member vs r a = true <-> exists v, value_of a r = Some v /\ In v vs.
Proof.
  unfold member. destruct (value_of a r) as [v |]; split.
  - intros H. apply existsb_exists in H as (x & Hin & Hx).
    apply value_eqb_eq in Hx. subst x. now exists v.
  - intros (w & Hw & Hin). injection Hw as <-.
    apply existsb_exists. exists v. split; [exact Hin |].
    now apply value_eqb_eq.
  - discriminate.
  - intros (w & Hw & _). discriminate Hw.
Qed.

(** The computed test decides the specification's condition. *)
Lemma keep_kept (sel : selection) (r : Collision) :
  keep sel r = true <-> kept sel r.
Proof.
  unfold keep, kept. rewrite forallb_forall. split.
  - intros H a Hne.
    assert (Ha : In a attributes) by (destruct a; simpl; tauto).
    specialize (H a Ha). apply orb_true_iff in H as [H | H].
    + apply negb_true_iff in H. apply truthy_true in Hne. congruence.
    + now apply member_true.
  - intros H a _. destruct (truthy (sel a)) eqn:Ht; simpl; [| reflexivity].
    apply member_true, H. now apply truthy_true.
Qed.

(** C1. The result of the filter block (and of the map's filter block) is
    the table restricted, in order, to the rows such that for each attribute
    with a non-empty selected set the row's value (for the year, the year of
    its date) is a member of the set: AND across attributes, membership
    within one attribute, no restriction from an empty set. *)
Theorem filter_keeps_exactly_matching_rows (T : Table) (S : Selection)
    (M : MapSelection) :
  filtered_df T S = filter (keep (selected S)) T /\
  map_df T M = filter (keep (map_selected M)) T /\
  (forall r, In r (filtered_df T S) <-> In r T /\ kept (selected S) r) /\
  (forall r, In r (map_df T M) <-> In r T /\ kept (map_selected M) r).
Proof.
  split; [apply filtered_df_apply |].
  split; [apply map_df_apply |].
  split; intros r.
  - rewrite filtered_df_apply. unfold apply.
    rewrite filter_In, keep_kept. reflexivity.
  - rewrite map_df_apply. unfold apply.
    rewrite filter_In, keep_kept. reflexivity.
Qed.

(** *** Objects *)

Import Heap.

Lemma deref_alloc (t : Table) (s : store) :
  deref (snd (alloc t s)) (fst (alloc t s)) = Some t.
Proof.
  unfold alloc, deref. simpl.
  rewrite nth_error_app2, Nat.sub_diag by lia. reflexivity.
Qed.

Lemma copy_state (s : store) (df : ref) (T : Table) :
  deref s df = Some T -> block_state s T (copy df s).
Proof.
  intros H. unfold copy. rewrite H.
  exists (List.length s), [T]. split; [reflexivity |]. split.
  - apply (deref_alloc T s).
  - lia.
Qed.

Lemma narrow_state {A} (sel : list A) (mask_of : Table -> list bool)
    (s : store) (t : Table) (st : option (ref * store)) :
  block_state s t st ->
  block_state s (if truthy sel then getitem_mask t (mask_of t) else t)
              (narrow sel mask_of st).
Proof.
  intros (r & ext & -> & Hr & Hle). unfold narrow.
  destruct (truthy sel).
  - unfold index_mask. rewrite Hr.
    exists (List.length (s ++ ext)), (ext ++ [getitem_mask t (mask_of t)]).
    unfold alloc. rewrite app_assoc. split; [reflexivity |]. split.
    + apply (deref_alloc _ (s ++ ext)).
    + rewrite length_app. lia.
  - exists r, ext. auto.
Qed.

(** The block on the store computes the table [filtered_df], in a frame of
    its own, and leaves every object that existed before unchanged. *)
Lemma run_filtered_df_state (s : store) (df : ref) (T : Table) (S : Selection) :
  deref s df = Some T ->
  block_state s (filtered_df T S) (run_filtered_df df S s).
Proof.
  intros H. unfold run_filtered_df, filtered_df.
  repeat apply narrow_state. now apply copy_state.
Qed.

Lemma block_state_frame (s : store) (t : Table) (st : option (ref * store)) :
  block_state s t st ->
  exists r s',
    st = Some (r, s') /\ deref s' r = Some t /\
    forall r0 t0, deref s r0 = Some t0 -> r0 <> r /\ deref s' r0 = Some t0.
Proof.
  intros (r & ext & -> & Hr & Hle).
  exists r, (s ++ ext). split; [reflexivity |]. split; [exact Hr |].
  intros r0 t0 H0.
  assert (Hlt : (r0 < List.length s)%nat).
  { apply nth_error_Some. unfold deref in H0. congruence. }
  split; [lia |].
  unfold deref in *. now rewrite nth_error_app1.
Qed.

Lemma selected_empty (S : Selection) :
  (forall a, selected S a = []) -> S = no_selection.
Proof.
  intros H. destruct S as [ys ds ls lis ims es ss].
  pose proof (H Year) as Hy. pose proof (H Weekday) as Hd.
  pose proof (H LocationType) as Hl. pose proof (H Light) as Hli.
  pose proof (H ImpactType) as Hi. pose proof (H Environment) as He.
  pose proof (H RoadSurface) as Hs. simpl in *.
  apply map_eq_nil in Hy, Hd, Hl, Hli, Hi, He, Hs. now subst.
Qed.

(** C4. With a selection in which every attribute has the empty set, the
    filter block returns a table with the content of its input, all rows
    in order; on the store, the result is a new frame and the input frame
    (like every other existing frame) is not modified. *)
Theorem empty_selection_identity (T : Table) (S : Selection) :
  (forall a, selected S a = []) ->
  filtered_df T S = T /\
  map_df T no_map_selection = T /\
  forall (s : store) (df : ref),
    deref s df = Some T ->
    exists r s',
      run_filtered_df df S s = Some (r, s') /\
      deref s' r = Some T /\
      r <> df /\
      forall r0 t0, deref s r0 = Some t0 -> deref s' r0 = Some t0.
Proof.
  intros H. apply selected_empty in H. subst S.
  split; [reflexivity |]. split; [reflexivity |].
  intros s df Hdf.
  destruct (block_state_frame s _ _ (run_filtered_df_state s df T no_selection Hdf))
    as (r & s' & Hrun & Hr & Hold).
  exists r, s'. split; [exact Hrun |]. split; [exact Hr |]. split.
  - destruct (Hold df T Hdf) as [Hne _]. congruence.
  - intros r0 t0 H0. now destruct (Hold r0 t0 H0).
Qed.

Lemma empty_selection_identity_witness :
  (forall a, selected no_selection a = []) /\
  filtered_df [on_day (Some "Monday"); on_day None] no_selection
  = [on_day (Some "Monday"); on_day None].
Proof.
  assert (H : forall a, selected no_selection a = []) by (intros []; reflexivity).
  split; [exact H |].
  exact (proj1 (empty_selection_identity
                  [on_day (Some "Monday"); on_day None] no_selection H)).
Defined.

(** C5. Filtering a filtered table again with the same selection changes
    nothing. *)
Theorem filter_idempotent (T : Table) (S : Selection) (M : MapSelection) :
  filtered_df (filtered_df T S) S = filtered_df T S /\
  map_df (map_df T M) M = map_df T M.
Proof.
  rewrite !filtered_df_apply, !map_df_apply. unfold apply.
  split; apply filter_idem.
Qed.

Lemma attribute_eq_dec (a b : attribute) : {a = b} + {a <> b}.
Proof. decide equality. Qed.

(** Adding a value to a set that already restricts widens the test. *)
Lemma kept_adds_value (sel sel' : selection) (a : attribute) (v : value)
    (r : Collision) :
  adds_value sel sel' a v -> sel a <> [] -> kept sel r -> kept sel' r.
Proof.
  intros [Hadd Hrest] Hne Hk b Hb.
  destruct (attribute_eq_dec b a) as [-> | Hba].
  - destruct (Hk a Hne) as (w & Hw & Hin).
    exists w. split; [exact Hw |]. apply Hadd. now right.
  - rewrite (Hrest b Hba) in *. now apply Hk.
Qed.

Lemma apply_adds_value (T : Table) (sel sel' : selection) (a : attribute)
    (v : value) (r : Collision) :
  adds_value sel sel' a v -> sel a <> [] ->
  In r (apply T sel) -> In r (apply T sel').
Proof.
  intros Hadd Hne. unfold apply. rewrite !filter_In, !keep_kept.
  intros [Hin Hk]. split; [exact Hin |].
  now apply (kept_adds_value sel sel' a v).
Qed.

(** C6, as stated, fails: adding a first value to an attribute whose set was
    empty turns "no restriction" into a restriction and drops rows. *)
Lemma first_value_narrows :
  adds_value (selected no_selection) (selected (only_days ["Monday"]))
             Weekday (VLabel "Monday") /\
  In (on_day (Some "Tuesday"))
     (filtered_df [on_day (Some "Monday"); on_day (Some "Tuesday")] no_selection) /\
  ~ In (on_day (Some "Tuesday"))
       (filtered_df [on_day (Some "Monday"); on_day (Some "Tuesday")]
                    (only_days ["Monday"])).
Proof.
  split; [| split].
  - split.
    + intros x. simpl. intuition congruence.
    + intros b Hb. destruct b; try reflexivity. contradiction.
  - simpl. right. left. reflexivity.
  - vm_compute. intros [H | []]. discriminate H.
Qed.

(** C6, amended. The filter is monotone in a selected set that already
    restricts: when the selection gains one value for an attribute whose set
    was non-empty, every row of the old result is a row of the new one. *)
Theorem filter_monotone_nonempty (T : Table) (S S' : Selection)
    (a : attribute) (v : value) :
  adds_value (selected S) (selected S') a v ->
  selected S a <> [] ->
  forall r, In r (filtered_df T S) -> In r (filtered_df T S').
Proof.
  intros Hadd Hne r. rewrite !filtered_df_apply.
  now apply (apply_adds_value T _ _ a v).
Qed.

Lemma filter_monotone_nonempty_witness :
  In (on_day (Some "Monday"))
     (filtered_df [on_day (Some "Monday"); on_day (Some "Tuesday")]
                  (only_days ["Tuesday"; "Monday"])).
Proof.
  apply (filter_monotone_nonempty
           [on_day (Some "Monday"); on_day (Some "Tuesday")]
           (only_days ["Monday"]) (only_days ["Tuesday"; "Monday"])
           Weekday (VLabel "Tuesday")).
  - split.
    + intros x. simpl. intuition congruence.
    + intros b Hb. destruct b; try reflexivity. contradiction.
  - simpl. discriminate.
  - simpl. left. reflexivity.
Defined.

(** ** Summary figures *)

Import Summary.

(** *** The order on labels *)

Lemma leb_cons (a b : ascii) (s t : string) :
  String.leb (String a s) (String b t)
  = match Ascii.compare a b with
    | Eq => String.leb s t
    | Lt => true
    | Gt => false
    end.
Proof.
  unfold String.leb. simpl. now destruct (Ascii.compare a b).
Qed.

Lemma leb_trans (s1 s2 s3 : string) :
  String.leb s1 s2 = true -> String.leb s2 s3 = true ->
  String.leb s1 s3 = true.
Proof.
  revert s2 s3. induction s1 as [| a s1 IH]; intros [| b s2] [| c s3];
    try reflexivity; try discriminate; try (intros _ H; discriminate H).
  rewrite !leb_cons. unfold Ascii.compare.
  destruct (N.compare_spec (N_of_ascii a) (N_of_ascii b)) as [Hab | Hab | Hab];
    destruct (N.compare_spec (N_of_ascii b) (N_of_ascii c)) as [Hbc | Hbc | Hbc];
    destruct (N.compare_spec (N_of_ascii a) (N_of_ascii c)) as [Hac | Hac | Hac];
    try discriminate; try reflexivity; try lia.
  apply IH.
Qed.

(** *** Sorting *)

Lemma insert_In (x y : string) (l : list string) :
  In y (insert x l) <-> y = x \/ In y l.
Proof.
  induction l as [| z l IH]; simpl.
  - intuition congruence.
  - destruct (String.leb x z); simpl; [intuition congruence |].
    rewrite IH. intuition congruence.
Qed.

Lemma sort_In (y : string) (l : list string) : In y (sort l) <-> In y l.
Proof.
  induction l as [| x l IH]; simpl.
  - reflexivity.
  - rewrite insert_In, IH. intuition congruence.
Qed.

Lemma insert_head_least (x : string) (l : list string) :
  head_least l -> head_least (insert x l).
Proof.
  destruct l as [| y tl]; simpl; intros H.
  - intros w [].
  - destruct (String.leb x y) eqn:Hxy; simpl.
    + intros w [<- | Hw]; [exact Hxy |].
      apply (leb_trans x y w Hxy). now apply H.
    + assert (Hyx : String.leb y x = true).
      { destruct (String.leb_total x y); congruence. }
      intros w Hw. apply insert_In in Hw as [-> | Hw]; [exact Hyx |].
      now apply H.
Qed.

Lemma sort_head_least (l : list string) : head_least (sort l).
Proof.
  induction l as [| x l IH]; simpl; [exact I |].
  now apply insert_head_least.
Qed.

Lemma leb_refl (s : string) : String.leb s s = true.
Proof. destruct (String.leb_total s s); assumption. Qed.

(** The first entry of a sorted list is in the list and below all of it. *)
Lemma sort_first (l : list string) (v : string) :
  In v l ->
  exists m rest, sort l = m :: rest /\ In m l /\ below m l.
Proof.
  intros Hv. pose proof (sort_head_least l) as Hh.
  destruct (sort l) as [| m rest] eqn:Hs.
  - apply sort_In in Hv. rewrite Hs in Hv. contradiction.
  - exists m, rest. split; [reflexivity |]. split.
    + apply sort_In. rewrite Hs. now left.
    + intros w Hw. apply sort_In in Hw. rewrite Hs in Hw.
      destruct Hw as [<- | Hw]; [apply leb_refl | now apply Hh].
Qed.

(** *** Counting *)

Lemma count_pos_In (x : string) (l : list string) :
  (0 < count x l)%nat <-> In x l.
Proof.
  induction l as [| y l IH]; simpl.
  - split; [lia | tauto].
  - destruct (String.eqb_spec x y) as [-> | Hne].
    + split; [now left | lia].
    + rewrite IH. split; [now right |].
      intros [H | H]; [congruence | exact H].
Qed.

Lemma unique_In (x : string) (l : list string) : In x (unique l) <-> In x l.
Proof.
  induction l as [| y l IH]; simpl.
  - reflexivity.
  - rewrite filter_In, IH.
    destruct (String.eqb_spec y x) as [-> | Hne]; simpl.
    + intuition.
    + intuition congruence.
Qed.

Lemma unique_NoDup (l : list string) : NoDup (unique l).
Proof.
  induction l as [| y l IH]; simpl.
  - constructor.
  - constructor.
    + rewrite filter_In. intros [_ H]. now rewrite String.eqb_refl in H.
    + now apply NoDup_filter.
Qed.

Lemma count_le_most (vals : list string) (w : string) :
  (count w vals
   <= list_max (map (fun v => count v vals) (unique vals)))%nat.
Proof.
  destruct (Nat.eq_dec (count w vals) 0) as [-> | Hpos]; [lia |].
  assert (Hin : In w (unique vals)).
  { apply unique_In, count_pos_In. lia. }
  pose proof (proj1 (list_max_le (map (fun v => count v vals) (unique vals)) _)
                (Nat.le_refl _)) as Hall.
  rewrite Forall_forall in Hall. apply Hall.
  apply in_map_iff. now exists w.
Qed.

Lemma most_frequent_count (vals : list string) (v : string) :
  most_frequent v vals <->
  In v vals /\
  count v vals = list_max (map (fun w => count w vals) (unique vals)).
Proof.
  split; intros [Hin H]; (split; [exact Hin |]).
  - apply Nat.le_antisymm; [apply count_le_most |].
    apply list_max_le, Forall_forall.
    intros n Hn. apply in_map_iff in Hn as (w & <- & _). apply H.
  - intros w. rewrite H. apply count_le_most.
Qed.

(** The entries of [mode] are exactly the most frequent values. *)
Lemma mode_In (s : list (option string)) (v : string) :
  In v (mode s) <-> most_frequent v (dropna s).
Proof.
  unfold mode. rewrite sort_In, filter_In, unique_In, Nat.eqb_eq.
  symmetry. apply most_frequent_count.
Qed.

(** With a most frequent value at hand, [mode()[0]] returns, and what it
    returns is a most frequent value, the least of them. *)
Lemma mode_first (s : list (option string)) (v : string) :
  most_frequent v (dropna s) ->
  exists m,
    getitem0 (mode s) = ret m /\
    most_frequent m (dropna s) /\
    forall w, most_frequent w (dropna s) -> String.leb m w = true.
Proof.
  intros Hv.
  set (tied := filter (fun v => Nat.eqb (count v (dropna s))
                       (list_max (map (fun v => count v (dropna s))
                                      (unique (dropna s)))))
                      (unique (dropna s))).
  assert (Htied : forall w, In w tied <-> most_frequent w (dropna s)).
  { intros w. rewrite <- mode_In. unfold mode. now rewrite sort_In. }
  destruct (sort_first tied v (proj2 (Htied v) Hv)) as (m & rest & Hs & Hm & Hlow).
  exists m. split; [| split].
  - unfold mode. fold tied. now rewrite Hs.
  - now apply Htied.
  - intros w Hw. now apply Hlow, Htied.
Qed.

(** *** Most frequent label *)

Lemma top_day_empty : top_day [] = ret "N/A".
Proof. reflexivity. Qed.

(** On a table with rows, the guard is passed and [mode()[0]] is taken. *)
Lemma top_day_rows (df : Table) :
  df <> [] -> top_day df = getitem0 (mode (map weekday df)).
Proof. destruct df; [congruence | reflexivity]. Qed.

Lemma top_light_rows (df : Table) :
  df <> [] -> top_light df = getitem0 (mode (map light df)).
Proof. destruct df; [congruence | reflexivity]. Qed.

Lemma top_surface_rows (df : Table) :
  df <> [] ->
  top_surface df = getitem0 (mode (map road_surface_condition df)).
Proof. destruct df; [congruence | reflexivity]. Qed.

(** A column without a non-missing entry has an empty [mode()]. *)
Lemma mode_all_missing (s : list (option string)) :
  dropna s = [] -> mode s = [].
Proof. intros H. unfold mode. now rewrite H. Qed.

(** On a table with rows whose weekday is missing throughout, [top_day]
    raises instead of giving a label. *)
Lemma top_day_all_missing (df : Table) :
  df <> [] -> dropna (map weekday df) = [] ->
  top_day df = raise (KeyError "0").
Proof.
  intros Hne Hna. rewrite (top_day_rows df Hne).
  now rewrite (mode_all_missing _ Hna).
Qed.

(** C7 at the failing input: one collision whose weekday (and light, and
    road surface) is missing.  The table is not empty, so the guard lets
    [mode()[0]] run on an empty result and it raises [KeyError]; "N/A" is
    returned for the empty table only. *)
Theorem top_day_missing_column_raises :
  top_day [on_day None] = raise (KeyError "0") /\
  top_light [on_day None] = raise (KeyError "0") /\
  top_surface [on_day None] = raise (KeyError "0") /\
  top_day [] = ret "N/A".
Proof. repeat split. Qed.

(** C10. On a table with rows, when values tie for most frequent (or one
    value alone is most frequent), [mode()[0]] returns, and returns the
    least of the most frequent values in the lexicographic order of
    labels; so for each of the three summary labels. *)
Theorem mode_tie_returns_least (df : Table) :
  df <> [] ->
  (forall v, most_frequent v (dropna (map weekday df)) ->
             least_most_frequent (top_day df) (dropna (map weekday df))) /\
  (forall v, most_frequent v (dropna (map light df)) ->
             least_most_frequent (top_light df) (dropna (map light df))) /\
  (forall v, most_frequent v (dropna (map road_surface_condition df)) ->
             least_most_frequent (top_surface df)
               (dropna (map road_surface_condition df))).
Proof.
  intros Hne. unfold least_most_frequent.
  rewrite top_day_rows, top_light_rows, top_surface_rows by exact Hne.
  repeat split; intros v Hv; now apply (mode_first _ v).
Qed.

Lemma mode_tie_returns_least_witness :
  least_most_frequent
    (top_day [on_day (Some "Tuesday"); on_day (Some "Monday");
              on_day (Some "Tuesday"); on_day (Some "Monday");
              on_day (Some "Friday")])
    ["Tuesday"; "Monday"; "Tuesday"; "Monday"; "Friday"].
Proof.
  apply (proj1 (mode_tie_returns_least
                  [on_day (Some "Tuesday"); on_day (Some "Monday");
                   on_day (Some "Tuesday"); on_day (Some "Monday");
                   on_day (Some "Friday")]
                  ltac:(discriminate)) "Tuesday").
  split.
  - simpl. left. reflexivity.
  - intros w.
    change (count w ["Tuesday"; "Monday"; "Tuesday"; "Monday"; "Friday"]
            <= 2)%nat.
    cbn -[String.eqb].
    destruct (String.eqb_spec w "Tuesday") as [-> | _]; [cbn; lia |].
    destruct (String.eqb_spec w "Monday") as [-> | _]; [cbn; lia |].
    destruct (String.eqb w "Friday"); lia.
Defined.

(** On that table the two tied weekdays are Monday and Tuesday, and Monday
    is reported. *)
Example top_day_tie :
  top_day [on_day (Some "Tuesday"); on_day (Some "Monday");
           on_day (Some "Tuesday"); on_day (Some "Monday");
           on_day (Some "Friday")] = ret "Monday".
Proof. reflexivity. Qed.

(** *** Injury rate *)

(** C9. The filtered injury rate is the sum of the injuries column (missing
    entries skipped) divided by the number of rows when the table has rows,
    and 0 when it has none; it is a finite number in both cases, never the
    [nan] or infinity that dividing by a zero row count gives. *)
Theorem rate_guards_empty_table (filtered_df : Table) :
  (filtered_df <> [] ->
   filtered_avg_injury_rate filtered_df
   = Finite (sum (map num_of_injuries filtered_df)
             # Pos.of_nat (len filtered_df))) /\
  (filtered_df = [] -> filtered_avg_injury_rate filtered_df = Finite 0) /\
  filtered_avg_injury_rate [] = Finite 0 /\
  (exists q, filtered_avg_injury_rate filtered_df = Finite q) /\
  truediv (sum (map num_of_injuries [])) (len []) = NaN.
Proof.
  split; [| split; [| split; [| split]]].
  - destruct filtered_df as [| r df]; [congruence | reflexivity].
  - intros ->. reflexivity.
  - reflexivity.
  - destruct filtered_df as [| r df]; eexists; reflexivity.
  - reflexivity.
Qed.

(** *** Counts per weekday *)

Lemma insert_desc_keys (x : string * nat) (l : list (string * nat)) (k : string) :
  In k (map fst (insert_desc x l)) <-> k = fst x \/ In k (map fst l).
Proof.
  induction l as [| y l IH]; simpl.
  - intuition congruence.
  - destruct (Nat.leb (snd y) (snd x)); simpl; [intuition congruence |].
    rewrite IH. intuition congruence.
Qed.

Lemma sort_desc_keys (l : list (string * nat)) (k : string) :
  In k (map fst (sort_desc l)) <-> In k (map fst l).
Proof.
  induction l as [| x l IH]; simpl.
  - reflexivity.
  - rewrite insert_desc_keys, IH. intuition congruence.
Qed.

(** Inserting an entry under a new label changes the entry at that label
    only. *)
Lemma loc_insert_desc (label k : string) (n : nat) (l : list (string * nat)) :
  ~ In k (map fst l) ->
  loc label (insert_desc (k, n) l)
  = if String.eqb label k then Some n else loc label l.
Proof.
  induction l as [| [k' n'] l IH]; simpl; intros Hk.
  - reflexivity.
  - destruct (Nat.leb n' n); simpl; [reflexivity |].
    rewrite IH by tauto.
    destruct (String.eqb_spec label k') as [-> | Hne]; [| reflexivity].
    destruct (String.eqb_spec k' k) as [-> | _]; [tauto | reflexivity].
Qed.

(** Sorting a counted series does not change its entries. *)
Lemma loc_sort_desc (label : string) (l : list (string * nat)) :
  NoDup (map fst l) -> loc label (sort_desc l) = loc label l.
Proof.
  induction l as [| [k n] l IH]; simpl; intros Hnd.
  - reflexivity.
  - inversion Hnd as [| ? ? Hk Hl]; subst.
    rewrite loc_insert_desc by now rewrite sort_desc_keys.
    now rewrite IH.
Qed.

Lemma loc_counts (label : string) (f : string -> nat) (ks : list string) :
  loc label (map (fun v => (v, f v)) ks)
  = if existsb (String.eqb label) ks then Some (f label) else None.
Proof.
  induction ks as [| k ks IH]; simpl.
  - reflexivity.
  - destruct (String.eqb_spec label k) as [-> | Hne]; simpl;
      [reflexivity | exact IH].
Qed.

(** The entry of [value_counts] at a label. *)
Lemma loc_value_counts (label : string) (s : list (option string)) :
  loc label (value_counts s) = counted label (dropna s).
Proof.
  unfold value_counts, counted.
  rewrite loc_sort_desc.
  - rewrite loc_counts.
    destruct (existsb (String.eqb label) (unique (dropna s))) eqn:Hex.
    + apply existsb_exists in Hex as (x & Hin & Hx).
      apply String.eqb_eq in Hx. subst x.
      apply (proj1 (unique_In _ _)) in Hin.
      apply (proj2 (count_pos_In _ _)) in Hin.
      destruct (count label (dropna s)); [lia | reflexivity].
    + destruct (count label (dropna s)) eqn:Hc; [reflexivity |].
      assert (Hin : In label (unique (dropna s))).
      { apply unique_In, count_pos_In. lia. }
      assert (Hex' : existsb (String.eqb label) (unique (dropna s)) = true).
      { apply existsb_exists. exists label. split; [exact Hin |].
        apply String.eqb_refl. }
      congruence.
  - rewrite map_map. simpl. rewrite map_id. apply unique_NoDup.
Qed.

(** C8, as stated, fails on its own scenario: the weekdays that do not occur
    come out with the missing value, not with the count zero. *)
Lemma weekday_counts_scenario_not_zero :
  weekday_counts [on_day (Some "Monday"); on_day (Some "Monday");
                  on_day (Some "Tuesday")]
  <> [("Monday", Some 2%nat); ("Tuesday", Some 1%nat);
      ("Wednesday", Some 0%nat); ("Thursday", Some 0%nat);
      ("Friday", Some 0%nat); ("Saturday", Some 0%nat);
      ("Sunday", Some 0%nat)].
Proof. vm_compute. discriminate. Qed.

(** C8, amended. For every table, [weekday_counts] has one row per weekday,
    in the order Monday to Sunday; a weekday that occurs in the table has
    its number of occurrences, a weekday that does not occur has the missing
    value.  On the scenario: Monday 2, Tuesday 1, the other days missing. *)
Theorem weekday_counts_canonical (filtered_df : Table) :
  weekday_counts filtered_df
  = map (fun d => (d, counted d (dropna (map weekday filtered_df)))) week /\
  map fst (weekday_counts filtered_df) = week /\
  weekday_counts [on_day (Some "Monday"); on_day (Some "Monday");
                  on_day (Some "Tuesday")]
  = [("Monday", Some 2%nat); ("Tuesday", Some 1%nat);
     ("Wednesday", None); ("Thursday", None); ("Friday", None);
     ("Saturday", None); ("Sunday", None)].
Proof.
  assert (H : weekday_counts filtered_df
              = map (fun d => (d, counted d (dropna (map weekday filtered_df))))
                    week).
  { unfold weekday_counts, reindex. apply map_ext.
    intros d. now rewrite loc_value_counts. }
  split; [exact H |]. split; [| reflexivity].
  rewrite H, map_map. simpl. reflexivity.
Qed.

(** * Further properties of the pipeline *)

(** ** Joins: what a merge keeps and what it adds *)

Import Shape.

Lemma join_row_extends (li ri : nat) (right : DataFrame) (l o : list cell) :
  In o (join_row li ri right l) -> extends l o.
Proof.
  unfold join_row.
  destruct (filter _ (rows right)) as [| m ms]; intros Hin.
  - destruct Hin as [<- | []]. eexists; reflexivity.
  - apply in_map_iff in Hin as (r & <- & _). eexists; reflexivity.
Qed.

Lemma join_row_nonempty (li ri : nat) (right : DataFrame) (l : list cell) :
  join_row li ri right l <> [].
Proof.
  unfold join_row. destruct (filter _ (rows right)); simpl; discriminate.
Qed.

Lemma flat_map_length_ge {A B} (f : A -> list B) (l : list A) :
  (forall x, f x <> []) -> (List.length l <= List.length (flat_map f l))%nat.
Proof.
  intros Hf. induction l as [| x l IH]; simpl; [lia |].
  rewrite length_app. specialize (Hf x).
  destruct (f x); [congruence | simpl; lia].
Qed.

Lemma merge_len_ge (left right out : DataFrame) (key : string) :
  merge left right key = ret out ->
  (Frame.len left <= Frame.len out)%nat.
Proof.
  unfold merge, key_index. intros Hm.
  destruct (index_of key (columns left)) as [li |]; [| discriminate Hm].
  destruct (index_of key (columns right)) as [ri |]; [| discriminate Hm].
  simpl in Hm. injection Hm as <-. unfold Frame.len. simpl.
  apply flat_map_length_ge. intros l. apply join_row_nonempty.
Qed.

(** X1. A left join drops no row of the left frame, whatever the lookup
    frame holds: the result has at least as many rows, each left row is the
    beginning of a result row, and each result row begins with a left row. *)
Theorem merge_keeps_left_rows (left right out : DataFrame) (key : string) :
  merge left right key = ret out ->
  (Frame.len left <= Frame.len out)%nat /\
  (forall l, In l (rows left) -> exists o, In o (rows out) /\ extends l o) /\
  (forall o, In o (rows out) -> exists l, In l (rows left) /\ extends l o).
Proof.
  intros Hm. split; [now apply (merge_len_ge left right out key) |].
  unfold merge, key_index in Hm.
  destruct (index_of key (columns left)) as [li |]; [| discriminate Hm].
  destruct (index_of key (columns right)) as [ri |]; [| discriminate Hm].
  simpl in Hm. injection Hm as <-. simpl.
  split.
  - intros l Hl.
    destruct (join_row li ri right l) as [| o os] eqn:Hj.
    + now apply join_row_nonempty in Hj.
    + exists o. split.
      * apply in_flat_map. exists l. split; [exact Hl |]. rewrite Hj. now left.
      * apply (join_row_extends li ri right). rewrite Hj. now left.
  - intros o Ho. apply in_flat_map in Ho as (l & Hl & Ho).
    exists l. split; [exact Hl |]. now apply (join_row_extends li ri right).
Qed.

Lemma merge_keeps_left_rows_witness :
  (Frame.len (mkFrame ["lightid"] [[Num 1]; [Num 3]])
   <= Frame.len (mkFrame ["lightid"; "light"]
                         [[Num 1; Str "Dark"]; [Num 1; Str "Dusk"];
                          [Num 3; NA]]))%nat.
Proof.
  apply (merge_keeps_left_rows
           (mkFrame ["lightid"] [[Num 1]; [Num 3]])
           (mkFrame ["lightid"; "light"] [[Num 1; Str "Dark"]; [Num 1; Str "Dusk"]])
           _ "lightid").
  reflexivity.
Defined.

(** With unique keys the rows a left row contributes are one row: the left
    row and the cells of its partner. *)
Lemma join_row_unique (li ri : nat) (right : DataFrame) (l : list cell) :
  distinct (map (at_col ri) (rows right)) = true ->
  join_row li ri right l = [l ++ joined_cells li ri right l].
Proof.
  intros Hd. unfold join_row, joined_cells.
  pose proof (distinct_matches (at_col li l) _ Hd) as Hle.
  rewrite <- filter_at_col in Hle.
  induction (rows right) as [| r rs IH]; simpl in *; [reflexivity |].
  destruct (cell_eqb (at_col li l) (at_col ri r)) eqn:Hc; simpl in *.
  - destruct (filter _ rs); simpl in *; [reflexivity | lia].
  - apply IH; [| exact Hle].
    apply andb_true_iff in Hd as [_ Hd]. exact Hd.
Qed.

(** X2. Against a lookup frame with unique keys, a left join is row by row:
    the result has the left rows in their order, each followed by the cells
    (other than the key) of the lookup row with its key, or by missing
    values when no lookup row has the key. *)
Theorem merge_unique_row_by_row (left right out : DataFrame) (key : string)
    (li ri : nat) :
  index_of key (columns left) = Some li ->
  index_of key (columns right) = Some ri ->
  unique_keys key right = true ->
  merge left right key = ret out ->
  rows out = map (fun l => l ++ joined_cells li ri right l) (rows left).
Proof.
  unfold merge, key_index, unique_keys. intros Hl Hr Hu Hm.
  rewrite Hl, Hr in Hm. rewrite Hr in Hu.
  simpl in Hm. injection Hm as <-. simpl.
  induction (rows left) as [| l ls IH]; simpl; [reflexivity |].
  now rewrite IH, (join_row_unique li ri right l Hu).
Qed.

Lemma merge_unique_row_by_row_witness :
  rows (mkFrame ["lightid"; "n"; "light"]
                [[Num 2; Num 7; Str "Dark"]; [NA; Num 8; NA]])
  = map (fun l => l ++ joined_cells 0 0
                         (mkFrame ["lightid"; "light"]
                                  [[Num 1; Str "Daylight"]; [Num 2; Str "Dark"]]) l)
        [[Num 2; Num 7]; [NA; Num 8]].
Proof.
  apply (merge_unique_row_by_row
           (mkFrame ["lightid"; "n"] [[Num 2; Num 7]; [NA; Num 8]])
           (mkFrame ["lightid"; "light"]
                    [[Num 1; Str "Daylight"]; [Num 2; Str "Dark"]])
           _ "lightid" 0 0); reflexivity.
Defined.

Lemma extends_trans (a b c : list cell) :
  extends a b -> extends b c -> extends a c.
Proof.
  intros [e1 ->] [e2 ->]. exists (e1 ++ e2). now rewrite app_assoc.
Qed.

Lemma Forall2_extends_trans (xs ys zs : list (list cell)) :
  Forall2 extends xs ys -> Forall2 extends ys zs -> Forall2 extends xs zs.
Proof.
  intros H. revert zs. induction H as [| x y xs ys Hxy _ IH]; intros zs Hz.
  - inversion Hz. constructor.
  - inversion Hz as [| ? z ? zs' Hyz Hrest]; subst.
    constructor; [now apply (extends_trans x y z) | now apply IH].
Qed.

Lemma merge_unique_extends (left right out : DataFrame) (key : string) :
  unique_keys key right = true ->
  merge left right key = ret out ->
  Forall2 extends (rows left) (rows out).
Proof.
  unfold merge, key_index, unique_keys. intros Hu Hm.
  destruct (index_of key (columns left)) as [li |]; [| discriminate Hm].
  destruct (index_of key (columns right)) as [ri |]; [| discriminate Hm].
  simpl in Hm. injection Hm as <-. simpl.
  induction (rows left) as [| l ls IH]; simpl; [constructor |].
  rewrite (join_row_unique li ri right l Hu). simpl.
  constructor; [eexists; reflexivity | exact IH].
Qed.

Lemma merge_all_extends dim_data js : forall fact_df out,
  forallb (join_unique dim_data) js = true ->
  merge_all dim_data js fact_df = ret out ->
  Forall2 extends (rows fact_df) (rows out).
Proof.
  induction js as [| [sheet key] js IH]; simpl; intros fact_df out Hu Hm.
  - injection Hm as <-.
    induction (rows fact_df); constructor; [exists []; now rewrite app_nil_r | assumption].
  - apply andb_true_iff in Hu as [Hj Hjs].
    apply bind_ret_inv in Hm as (mid & Hmid & Hrest).
    unfold merge_dim, getitem in Hmid.
    destruct (lookup sheet dim_data) as [t |]; [| discriminate Hmid].
    simpl in Hmid.
    apply (Forall2_extends_trans _ (rows mid)).
    + now apply (merge_unique_extends _ t _ key).
    + now apply IH.
Qed.

(** What a successful [try] body has read. *)
Lemma load_body_ret_inv (fs : Files) df dim_data :
  load_body fs = ret (df, dim_data) ->
  exists fact,
    csv fs = Some fact /\ xlsx fs = Some dim_data /\
    merge_all dim_data joins fact = ret df.
Proof.
  intros Hload. rewrite load_body_loop in Hload.
  apply bind_ret_inv in Hload as (fact & Hread & Hload).
  apply bind_ret_inv in Hload as (dd & Hexcel & Hload).
  apply bind_ret_inv in Hload as (out & Hmerge & Hret).
  injection Hret as <- <-.
  unfold read_csv in Hread. destruct (csv fs) as [f |]; [| discriminate Hread].
  destruct (has_column _ _); [| discriminate Hread]. injection Hread as ->.
  unfold read_excel in Hexcel.
  destruct (xlsx fs) as [sh |]; [| discriminate Hexcel]. injection Hexcel as ->.
  exists fact. auto.
Qed.

(** X3. When every lookup sheet has unique keys, the joined table holds the
    rows of the fact table in their order, each with the cells of the eight
    lookups appended: row [i] of the result begins with row [i] of the fact
    table. *)
Theorem load_keeps_fact_rows (fs : Files) (fact df : DataFrame)
    (dim_data : list (string * DataFrame)) :
  csv fs = Some fact ->
  lookups_unique dim_data = true ->
  load_body fs = ret (df, dim_data) ->
  Forall2 extends (rows fact) (rows df).
Proof.
  intros Hcsv Hu Hload.
  apply load_body_ret_inv in Hload as (fact' & Hcsv' & _ & Hmerge).
  assert (fact' = fact) by congruence. subst fact'.
  exact (merge_all_extends dim_data joins fact df Hu Hmerge).
Qed.

Lemma load_keeps_fact_rows_witness :
  exists df, load_body demo_files = ret (df, demo_sheets) /\
             Forall2 extends (rows demo_fact) (rows df).
Proof.
  eexists. split.
  - vm_compute. reflexivity.
  - apply (load_keeps_fact_rows demo_files demo_fact _ demo_sheets).
    + reflexivity.
    + vm_compute. reflexivity.
    + vm_compute. reflexivity.
Defined.

Lemma raises_not_ret {A} (m : result A) (a : A) : raises m -> m <> ret a.
Proof. intros [e ->]. discriminate. Qed.

(** X4. A load that succeeds found everything it reads: both files, every
    one of the eight sheets, and in each sheet its join column; the lookup
    tables it returns are the whole workbook. *)
Theorem load_success_inputs (fs : Files) (df : DataFrame)
    (dim_data : list (string * DataFrame)) :
  load_body fs = ret (df, dim_data) ->
  xlsx fs = Some dim_data /\
  (exists fact, csv fs = Some fact /\
                has_column "accident_date" (columns fact) = true) /\
  forall sheet key, In (sheet, key) joins ->
    exists t, lookup sheet dim_data = Some t /\
              has_column key (columns t) = true.
Proof.
  intros Hload.
  destruct (load_body_ret_inv fs df dim_data Hload) as (fact & Hcsv & Hx & _).
  split; [exact Hx |]. split.
  - exists fact. split; [exact Hcsv |].
    unfold load_body, read_csv in Hload. rewrite Hcsv in Hload.
    destruct (has_column "accident_date" (columns fact));
      [reflexivity | discriminate Hload].
  - intros sheet key Hin.
    destruct (lookup sheet dim_data) as [t |] eqn:Hs.
    + exists t. split; [reflexivity |].
      destruct (has_column key (columns t)) eqn:Hk; [reflexivity |].
      exfalso. apply (raises_not_ret (load_body fs) (df, dim_data)); [| exact Hload].
      apply load_failure_raises.
      now apply (missing_join_key fs dim_data sheet key t).
    + exfalso. apply (raises_not_ret (load_body fs) (df, dim_data)); [| exact Hload].
      apply load_failure_raises.
      now apply (missing_sheet fs dim_data sheet key).
Qed.

Lemma load_success_inputs_witness :
  exists df,
    load_body demo_files = ret (df, demo_sheets) /\
    forall sheet key, In (sheet, key) joins ->
      exists t, lookup sheet demo_sheets = Some t /\
                has_column key (columns t) = true.
Proof.
  eexists. split.
  - vm_compute. reflexivity.
  - refine (proj2 (proj2 (load_success_inputs demo_files _ demo_sheets _))).
    vm_compute. reflexivity.
Defined.

(** *** Shape *)

Lemma index_of_lt (c : string) (cols : list string) (i : nat) :
  index_of c cols = Some i -> (i < List.length cols)%nat.
Proof.
  revert i. induction cols as [| x cols IH]; simpl; intros i H.
  - discriminate H.
  - destruct (String.eqb c x).
    + injection H as <-. lia.
    + destruct (index_of c cols) as [j |]; [| discriminate H].
      injection H as <-. specialize (IH j eq_refl). lia.
Qed.

Lemma drop_nth_length {A} (i : nat) (l : list A) :
  (i < List.length l)%nat ->
  List.length (drop_nth i l) = (List.length l - 1)%nat.
Proof.
  revert i. induction l as [| x l IH]; intros [| i]; simpl; intros H; try lia.
  rewrite IH by lia. lia.
Qed.

Lemma merged_columns_length (key : string) (ri : nat) (lc rc : list string) :
  (ri < List.length rc)%nat ->
  List.length (merged_columns key ri lc rc)
  = (List.length lc + List.length rc - 1)%nat.
Proof.
  intros Hri. unfold merged_columns.
  rewrite length_app, !length_map, drop_nth_length by exact Hri. lia.
Qed.

Lemma merge_rows_shape (left right out : DataFrame) (key : string) :
  well_formed left -> well_formed right ->
  merge left right key = ret out ->
  well_formed out.
Proof.
  unfold merge, key_index. intros Hl Hr Hm.
  destruct (index_of key (columns left)) as [li |]; [| discriminate Hm].
  destruct (index_of key (columns right)) as [ri |] eqn:Hri; [| discriminate Hm].
  simpl in Hm. injection Hm as <-.
  apply index_of_lt in Hri.
  unfold well_formed in *. simpl.
  rewrite (merged_columns_length key ri _ _ Hri).
  rewrite Forall_forall in *. intros o Ho.
  apply in_flat_map in Ho as (l & Hin & Ho).
  specialize (Hl l Hin). unfold join_row in Ho.
  destruct (filter _ (rows right)) as [| m ms] eqn:Hf.
  - destruct Ho as [<- | []]. rewrite length_app, repeat_length. lia.
  - apply in_map_iff in Ho as (r & <- & Hrin).
    assert (Hr' : In r (rows right)).
    { rewrite <- Hf in Hrin. now apply filter_In in Hrin. }
    specialize (Hr r Hr').
    rewrite length_app, drop_nth_length by lia. lia.
Qed.

(** X5. A merge keeps frames in shape: when every row of both frames has
    one cell per column, so has every row of the result, and the result has
    the columns of both sides with the join column once. *)
Theorem merge_well_formed (left right out : DataFrame) (key : string) :
  well_formed left -> well_formed right ->
  merge left right key = ret out ->
  well_formed out /\
  List.length (columns out)
  = (List.length (columns left) + List.length (columns right) - 1)%nat.
Proof.
  intros Hl Hr Hm.
  split; [now apply (merge_rows_shape left right out key) |].
  unfold merge, key_index in Hm.
  destruct (index_of key (columns left)) as [li |]; [| discriminate Hm].
  destruct (index_of key (columns right)) as [ri |] eqn:Hri; [| discriminate Hm].
  simpl in Hm. injection Hm as <-. simpl.
  apply merged_columns_length. now apply index_of_lt in Hri.
Qed.

Lemma merge_well_formed_witness :
  well_formed (mkFrame ["lightid"; "n"; "light"]
                       [[Num 2; Num 7; Str "Dark"]; [NA; Num 8; NA]]).
Proof.
  apply (merge_well_formed
           (mkFrame ["lightid"; "n"] [[Num 2; Num 7]; [NA; Num 8]])
           (mkFrame ["lightid"; "light"]
                    [[Num 1; Str "Daylight"]; [Num 2; Str "Dark"]])
           _ "lightid").
  - repeat constructor.
  - repeat constructor.
  - reflexivity.
Defined.

(** ** Distinct values, counting and sorting *)

Import Order.

Section ByFacts.

Context {A : Type}.
Variable eqb : A -> A -> bool.
Variable leb : A -> A -> bool.
Hypothesis eqb_eq : forall x y, eqb x y = true <-> x = y.
Hypothesis leb_total : forall x y, leb x y = true \/ leb y x = true.
Hypothesis leb_trans :
  forall x y z, leb x y = true -> leb y z = true -> leb x z = true.

Lemma eqb_refl_by (x : A) : eqb x x = true.
Proof. now apply eqb_eq. Qed.

Lemma count_by_pos_In (x : A) (l : list A) :
  (0 < count_by eqb x l)%nat <-> In x l.
Proof.
  induction l as [| y l IH]; simpl.
  - split; [lia | tauto].
  - destruct (eqb x y) eqn:Hxy.
    + apply eqb_eq in Hxy. subst y. split; [now left | lia].
    + rewrite IH. split; [now right |].
      intros [H | H]; [| exact H].
      subst y. rewrite eqb_refl_by in Hxy. discriminate Hxy.
Qed.

Lemma unique_by_In (x : A) (l : list A) :
  In x (unique_by eqb l) <-> In x l.
Proof.
  induction l as [| y l IH]; simpl.
  - reflexivity.
  - rewrite filter_In, IH.
    destruct (eqb y x) eqn:Hyx; simpl.
    + apply eqb_eq in Hyx. intuition.
    + assert (y <> x).
      { intros ->. rewrite eqb_refl_by in Hyx. discriminate Hyx. }
      intuition congruence.
Qed.

Lemma unique_by_NoDup (l : list A) : NoDup (unique_by eqb l).
Proof.
  induction l as [| y l IH]; simpl.
  - constructor.
  - constructor.
    + rewrite filter_In. intros [_ H]. now rewrite eqb_refl_by in H.
    + now apply NoDup_filter.
Qed.

Lemma insert_by_perm (x : A) (l : list A) :
  Permutation (insert_by leb x l) (x :: l).
Proof.
  induction l as [| y l IH]; simpl.
  - reflexivity.
  - destruct (leb x y); [reflexivity |].
    rewrite IH. apply perm_swap.
Qed.

Lemma sort_by_perm (l : list A) : Permutation (sort_by leb l) l.
Proof.
  induction l as [| x l IH]; simpl.
  - reflexivity.
  - rewrite insert_by_perm. now constructor.
Qed.

Lemma sort_by_In (x : A) (l : list A) : In x (sort_by leb l) <-> In x l.
Proof.
  split; apply Permutation_in;
    [apply sort_by_perm | symmetry; apply sort_by_perm].
Qed.

Lemma insert_by_sorted (x : A) (l : list A) :
  StronglySorted (fun a b => leb a b = true) l ->
  StronglySorted (fun a b => leb a b = true) (insert_by leb x l).
Proof.
  induction 1 as [| y l Hs IH Hy]; simpl.
  - repeat constructor.
  - destruct (leb x y) eqn:Hxy.
    + constructor; [now constructor |].
      constructor; [exact Hxy |].
      rewrite Forall_forall in *. intros z Hz.
      apply (leb_trans x y z Hxy). now apply Hy.
    + constructor; [exact IH |].
      rewrite Forall_forall in *. intros z Hz.
      apply (Permutation_in _ (insert_by_perm x l)) in Hz.
      destruct Hz as [<- | Hz]; [| now apply Hy].
      destruct (leb_total x y); congruence.
Qed.

Lemma sort_by_sorted (l : list A) :
  StronglySorted (fun a b => leb a b = true) (sort_by leb l).
Proof.
  induction l as [| x l IH]; simpl; [constructor |].
  now apply insert_by_sorted.
Qed.

(** Sorting distinct values gives a list that ascends without repetition. *)
Lemma sort_by_strict (l : list A) :
  NoDup l -> strictly_ascending leb (sort_by leb l).
Proof.
  intros Hnd.
  assert (Hnd' : NoDup (sort_by leb l)).
  { apply (Permutation_NoDup (l := l)); [| exact Hnd].
    symmetry. apply sort_by_perm. }
  pose proof (sort_by_sorted l) as Hs. unfold strictly_ascending.
  induction Hs as [| y tl Hs IH Hy].
  - constructor.
  - inversion Hnd' as [| ? ? Hnotin Htl]; subst.
    constructor; [now apply IH |].
    rewrite Forall_forall in *. intros z Hz. split; [now apply Hy |].
    intros ->. contradiction.
Qed.

(** The occurrences of the labels of a duplicate-free list add up to the
    number of entries that carry one of them. *)
Lemma count_by_total (ks vals : list A) :
  NoDup ks ->
  list_sum (map (fun k => count_by eqb k vals) ks)
  = List.length (filter (fun v => existsb (fun k => eqb k v) ks) vals).
Proof.
  intros Hnd. induction vals as [| v vals IH]; simpl.
  - clear Hnd. induction ks; simpl; [reflexivity | assumption].
  - assert (Hstep : list_sum (map (fun k => if eqb k v
                                            then S (count_by eqb k vals)
                                            else count_by eqb k vals) ks)
                    = ((if existsb (fun k => eqb k v) ks then 1 else 0)
                       + list_sum (map (fun k => count_by eqb k vals) ks))%nat).
    { clear IH. induction Hnd as [| k ks Hk Hnd IHk]; simpl; [reflexivity |].
      rewrite IHk. destruct (eqb k v) eqn:Hkv; simpl.
      - apply eqb_eq in Hkv. subst v.
        assert (Hno : existsb (fun k0 => eqb k0 k) ks = false).
        { destruct (existsb (fun k0 => eqb k0 k) ks) eqn:Hex; [| reflexivity].
          apply existsb_exists in Hex as (k0 & Hin & Hk0).
          apply eqb_eq in Hk0. subst k0. contradiction. }
        rewrite Hno. lia.
      - destruct (existsb (fun k0 => eqb k0 v) ks); lia. }
    rewrite Hstep, IH.
    destruct (existsb (fun k => eqb k v) ks); simpl; lia.
Qed.

End ByFacts.

(** The functions on labels are the generic ones at the order of strings. *)
Lemma count_count_by (x : string) (l : list string) :
  count x l = count_by String.eqb x l.
Proof. induction l as [| y l IH]; simpl; now rewrite ?IH. Qed.

Lemma unique_unique_by (l : list string) : unique l = unique_by String.eqb l.
Proof. induction l as [| y l IH]; simpl; now rewrite ?IH. Qed.

Lemma sort_sort_by (l : list string) : sort l = sort_by String.leb l.
Proof.
  induction l as [| x l IH]; simpl; [reflexivity |].
  rewrite IH. generalize (sort_by String.leb l) as s.
  induction s as [| y s IHs]; simpl; [reflexivity | now rewrite IHs].
Qed.

Lemma dropna_In {A} (v : A) (s : list (option A)) :
  In v (dropna s) <-> In (Some v) s.
Proof.
  induction s as [| [x |] s IH]; simpl.
  - reflexivity.
  - rewrite IH. split; (intros [H | H]; [left; congruence | now right]).
  - rewrite IH. split; [now right |]. intros [H | H]; [discriminate H | exact H].
Qed.

Lemma Zleb_total (x y : Z) : Z.leb x y = true \/ Z.leb y x = true.
Proof. rewrite !Z.leb_le. lia. Qed.

Lemma Zleb_trans (x y z : Z) :
  Z.leb x y = true -> Z.leb y z = true -> Z.leb x z = true.
Proof. rewrite !Z.leb_le. lia. Qed.

(** ** The options of the filter controls *)

Import Domains.

Lemma options_In (col : Collision -> option string) (df : Table) (v : string) :
  In v (options col df) <-> exists r, In r df /\ col r = Some v.
Proof.
  unfold options. rewrite sort_In, unique_In, dropna_In, in_map_iff.
  split; intros (r & H1 & H2); exists r; auto.
Qed.

(** X6. Each control offers exactly the values that occur in its column
    (for the year control, the years of the dates that are present), each
    once, in ascending order; missing values are not offered. *)
Theorem filter_options_exact_sorted (df : Table) (c : control) :
  (forall v, In v (options (column c) df) <->
             exists r, In r df /\ column c r = Some v) /\
  strictly_ascending String.leb (options (column c) df) /\
  (forall y, In y (years df) <->
             exists r d, In r df /\ accident_date r = Some d /\ year d = y) /\
  strictly_ascending Z.leb (years df).
Proof.
  split; [intros v; apply options_In |]. split; [| split].
  - unfold options. rewrite sort_sort_by, unique_unique_by.
    apply (sort_by_strict String.leb String.leb_total leb_trans).
    apply (unique_by_NoDup String.eqb String.eqb_eq).
  - intros y. unfold years, dt_year.
    rewrite (sort_by_In Z.leb), (unique_by_In Z.eqb Z.eqb_eq), dropna_In.
    rewrite map_map, in_map_iff. split.
    + intros (r & Hy & Hin).
      destruct (accident_date r) as [d |] eqn:Hd; [| discriminate Hy].
      exists r, d. simpl in Hy. injection Hy as <-. auto.
    + intros (r & d & Hin & Hd & <-). exists r. rewrite Hd. auto.
  - unfold years.
    apply (sort_by_strict Z.leb Zleb_total Zleb_trans).
    apply (unique_by_NoDup Z.eqb Z.eqb_eq).
Qed.

(** The filter block with one control of labels in use. *)
Lemma filtered_df_pick (df : Table) (c : control) (labels : list string) :
  filtered_df df (pick c labels)
  = filter (passes String.eqb labels (column c)) df.
Proof.
  rewrite <- narrow_filter. destruct c; reflexivity.
Qed.

(** X7. Selecting one offered value in one control, and nothing else, gives
    a table that is not empty and holds exactly the rows with that value. *)
Theorem offered_value_selects_rows (df : Table) (c : control) (v : string) :
  In v (options (column c) df) ->
  filtered_df df (pick c [v]) <> [] /\
  forall r, In r (filtered_df df (pick c [v])) <->
            In r df /\ column c r = Some v.
Proof.
  intros Hv.
  assert (Hrows : forall r, In r (filtered_df df (pick c [v])) <->
                            In r df /\ column c r = Some v).
  { intros r. rewrite filtered_df_pick, filter_In. unfold passes. simpl.
    destruct (column c r) as [w |]; simpl.
    - rewrite orb_false_r.
      destruct (String.eqb_spec w v) as [-> | Hne]; intuition congruence.
    - intuition discriminate. }
  split; [| exact Hrows].
  apply options_In in Hv as (r & Hin & Hr).
  intros Hempty.
  assert (Hr' : In r (filtered_df df (pick c [v]))) by now apply Hrows.
  rewrite Hempty in Hr'. contradiction.
Qed.

Lemma offered_value_selects_rows_witness :
  filtered_df [on_day (Some "Monday"); on_day None; on_day (Some "Friday")]
              (pick Days ["Friday"]) <> [].
Proof.
  apply (offered_value_selects_rows
           [on_day (Some "Monday"); on_day None; on_day (Some "Friday")]
           Days "Friday").
  vm_compute. left. reflexivity.
Defined.

(** X8. Selecting every value a control offers is not the same as selecting
    none: it keeps the rows whose value is present and drops the rows where
    it is missing. *)
Theorem all_offered_values_drop_missing (df : Table) (c : control) :
  options (column c) df <> [] ->
  filtered_df df (pick c (options (column c) df))
  = filter (fun r => notna (column c r)) df.
Proof.
  intros Hne. rewrite filtered_df_pick. apply filter_ext_in.
  intros r Hin. unfold passes.
  apply truthy_true in Hne. rewrite Hne. simpl.
  destruct (column c r) as [v |] eqn:Hv; simpl; [| reflexivity].
  apply existsb_exists. exists v. split; [| apply String.eqb_refl].
  apply options_In. now exists r.
Qed.

Lemma all_offered_values_drop_missing_witness :
  filtered_df [on_day (Some "Monday"); on_day None; on_day (Some "Friday")]
              (pick Days ["Friday"; "Monday"])
  = [on_day (Some "Monday"); on_day (Some "Friday")].
Proof.
  apply (all_offered_values_drop_missing
           [on_day (Some "Monday"); on_day None; on_day (Some "Friday")] Days).
  vm_compute. discriminate.
Defined.

(** ** The filter block *)

(** X9. The map's filter block is the sidebar's block with the weekday and
    impact controls left empty: the two blocks agree on selections that
    both can express. *)
Theorem map_df_is_filtered_df (T : Table) (M : MapSelection) :
  map_df T M
  = filtered_df T (mkSelection (map_year M) [] (map_location M) (map_light M)
                               [] (map_environment M) (map_surface M)).
Proof. reflexivity. Qed.

Lemma apply_apply (T : Table) (s1 s2 : selection) :
  apply (apply T s1) s2 = filter (fun r => keep s1 r && keep s2 r) T.
Proof. unfold apply. apply filter_filter. Qed.

(** X10. Filters compose in any order: narrowing a filtered table by a
    second selection gives the rows that pass both, whichever selection is
    applied first, also across the sidebar's and the map's block. *)
Theorem filters_commute (T : Table) (S1 S2 : Selection) (M : MapSelection) :
  filtered_df (filtered_df T S1) S2 = filtered_df (filtered_df T S2) S1 /\
  map_df (filtered_df T S1) M = filtered_df (map_df T M) S1 /\
  forall r, In r (filtered_df (filtered_df T S1) S2) <->
            In r (filtered_df T S1) /\ In r (filtered_df T S2).
Proof.
  rewrite !filtered_df_apply, !map_df_apply, !apply_apply.
  split; [| split].
  - apply filter_ext. intros r. apply andb_comm.
  - apply filter_ext. intros r. apply andb_comm.
  - intros r. unfold apply. rewrite !filter_In, andb_true_iff. tauto.
Qed.

(** X11. The filter works row by row: the result of a table put together
    from two parts is the results of the parts put together, and the result
    never has more rows than the input. *)
Theorem filter_row_by_row (T1 T2 : Table) (S : Selection) :
  filtered_df (T1 ++ T2) S = filtered_df T1 S ++ filtered_df T2 S /\
  (len (filtered_df T1 S) <= len T1)%nat.
Proof.
  rewrite !filtered_df_apply. unfold apply, len. split.
  - apply filter_app.
  - apply filter_length_le.
Qed.

(** X12. On the store, for every selection: the block ends with
    [filtered_df] bound to a frame that did not exist before, whose content
    is the filtered table, and every frame that existed before, [df] among
    them, has the content it had. *)
Theorem filter_block_allocates_only (s : store) (df : ref) (T : Table)
    (S : Selection) :
  deref s df = Some T ->
  exists r s',
    run_filtered_df df S s = Some (r, s') /\
    deref s' r = Some (filtered_df T S) /\
    deref s r = None /\
    forall r0 t0, deref s r0 = Some t0 -> deref s' r0 = Some t0.
Proof.
  intros Hdf.
  destruct (run_filtered_df_state s df T S Hdf) as (r & ext & Hrun & Hr & Hle).
  exists r, (s ++ ext). split; [exact Hrun |]. split; [exact Hr |]. split.
  - apply nth_error_None. exact Hle.
  - intros r0 t0 H0. unfold deref in *.
    rewrite nth_error_app1; [exact H0 |].
    apply nth_error_Some. congruence.
Qed.

Lemma filter_block_allocates_only_witness :
  exists r s',
    run_filtered_df 0%nat (only_days ["Monday"])
                    [[on_day (Some "Monday"); on_day None]] = Some (r, s') /\
    deref s' r = Some (filtered_df [on_day (Some "Monday"); on_day None]
                                   (only_days ["Monday"])) /\
    deref [[on_day (Some "Monday"); on_day None]] r = None /\
    forall r0 t0,
      deref [[on_day (Some "Monday"); on_day None]] r0 = Some t0 ->
      deref s' r0 = Some t0.
Proof.
  apply (filter_block_allocates_only
           [[on_day (Some "Monday"); on_day None]] 0%nat
           [on_day (Some "Monday"); on_day None] (only_days ["Monday"])).
  reflexivity.
Defined.

(** ** KPIs and the alert *)

Import Page.

Lemma sum_fillna (s : list (option Z)) : sum (fillna 0 s) = sum s.
Proof.
  induction s as [| [z |] s IH]; simpl; [reflexivity | now rewrite IH | exact IH].
Qed.

Lemma sum_mask_filter (col : Collision -> option Z) (f : Collision -> bool)
    (df : Table) :
  (sum_mask (series_gt (map col (filter f df)) 0)
   <= sum_mask (series_gt (map col df) 0))%nat.
Proof.
  induction df as [| r df IH]; simpl; [lia |].
  destruct (f r); simpl;
    destruct (match col r with Some z => (0 <? z)%Z | None => false end); lia.
Qed.

Lemma sum_mask_le_length (m : list bool) : (sum_mask m <= List.length m)%nat.
Proof. induction m as [| [|] m IH]; simpl; lia. Qed.

Lemma sum_filter_nonneg (f : Collision -> bool) (df : Table) :
  injuries_nonnegative df ->
  (0 <= sum (map num_of_injuries (filter f df))
   <= sum (map num_of_injuries df))%Z.
Proof.
  unfold injuries_nonnegative.
  induction df as [| r df IH]; simpl; intros Hnn; [lia |].
  assert (IH' : (0 <= sum (map num_of_injuries (filter f df))
                 <= sum (map num_of_injuries df))%Z).
  { apply IH. intros r0 n Hin. apply Hnn. now right. }
  pose proof (Hnn r) as Hr.
  destruct (f r); simpl; destruct (num_of_injuries r) as [n |];
    try specialize (Hr n (or_introl eq_refl) eq_refl); lia.
Qed.

(** X13. The KPIs of a filtered table never exceed those of the whole
    table: not the number of collisions, not the number of collisions with
    pedestrians (itself at most the number of collisions), and, as long as
    no injury count is negative, not the injuries, which stay at or
    above 0. *)
Theorem filtered_kpis_bounded (df : Table) (S : Selection) :
  injuries_nonnegative df ->
  (total_collisions (filtered_df df S) <= total_collisions df)%nat /\
  (pedestrian_involved (filtered_df df S) <= pedestrian_involved df)%nat /\
  (pedestrian_involved df <= total_collisions df)%nat /\
  (0 <= total_injuries (filtered_df df S) <= total_injuries df)%Z.
Proof.
  intros Hnn. rewrite filtered_df_apply. unfold apply.
  unfold total_collisions, pedestrian_involved, total_injuries, len.
  split; [apply filter_length_le |]. split; [apply sum_mask_filter |]. split.
  - etransitivity; [apply sum_mask_le_length |].
    unfold series_gt. now rewrite !length_map.
  - rewrite !sum_fillna. now apply sum_filter_nonneg.
Qed.

(** X14. The alert follows the KPIs shown above it: the injury alert appears
    exactly when the Total Injuries KPI exceeds 200, the volume warning
    exactly when it does not and Total Collisions exceeds 1000; there is no
    alert otherwise, and never both. *)
Theorem alert_follows_kpis (filtered_df : Table) :
  (kpi_alert filtered_df
   = Some (AlertError "High Injury Alert: More than 200 injuries in filtered data!")
   <-> (200 < total_injuries filtered_df)%Z) /\
  (kpi_alert filtered_df
   = Some (AlertWarning "High Volume: More than 1,000 collisions!")
   <-> (total_injuries filtered_df <= 200)%Z /\
       (1000 < total_collisions filtered_df)%nat) /\
  (kpi_alert filtered_df = None
   <-> (total_injuries filtered_df <= 200)%Z /\
       (total_collisions filtered_df <= 1000)%nat).
Proof.
  unfold kpi_alert, total_injuries, total_collisions. rewrite sum_fillna.
  destruct (Z.ltb_spec 200 (sum (map num_of_injuries filtered_df))) as [Hi | Hi];
    destruct (Nat.ltb_spec 1000 (len filtered_df)) as [Hv | Hv];
    (split; [| split]); (split; [intros H | intros H]);
    try discriminate H; try reflexivity; try lia;
    try (split; lia); destruct H; lia.
Qed.

(** X15. When the whole table raises no alert and no injury count is
    negative, no selection of the filters raises one. *)
Theorem quiet_table_stays_quiet (df : Table) (S : Selection) :
  injuries_nonnegative df ->
  kpi_alert df = None ->
  kpi_alert (filtered_df df S) = None.
Proof.
  intros Hnn Hq.
  assert (Hc : (len (filtered_df df S) <= len df)%nat).
  { rewrite filtered_df_apply. apply filter_length_le. }
  assert (Hi : (0 <= sum (map num_of_injuries (filtered_df df S))
                <= sum (map num_of_injuries df))%Z).
  { rewrite filtered_df_apply. now apply sum_filter_nonneg. }
  unfold kpi_alert in *.
  destruct (Z.ltb_spec 200 (sum (map num_of_injuries df))); [discriminate Hq |].
  destruct (Nat.ltb_spec 1000 (len df)); [discriminate Hq |].
  destruct (Z.ltb_spec 200 (sum (map num_of_injuries (filtered_df df S)))); [lia |].
  destruct (Nat.ltb_spec 1000 (len (filtered_df df S))); [lia | reflexivity].
Qed.

Lemma filtered_kpis_bounded_witness :
  (0 <= total_injuries
          (filtered_df [with_injuries (Some 2%Z); with_injuries None]
                       no_selection)
   <= total_injuries [with_injuries (Some 2%Z); with_injuries None])%Z.
Proof.
  apply (filtered_kpis_bounded
           [with_injuries (Some 2%Z); with_injuries None] no_selection).
  intros r n [<- | [<- | []]] Hn; simpl in Hn; [| discriminate Hn].
  injection Hn as <-. lia.
Defined.

Lemma quiet_table_stays_quiet_witness :
  kpi_alert (filtered_df [with_injuries (Some 2%Z); with_injuries None]
                         (only_days ["Monday"])) = None.
Proof.
  apply (quiet_table_stays_quiet
           [with_injuries (Some 2%Z); with_injuries None] (only_days ["Monday"])).
  - intros r n [<- | [<- | []]] Hn; simpl in Hn; [| discriminate Hn].
    injection Hn as <-. lia.
  - reflexivity.
Defined.

(** ** Collisions per month *)

Lemma period_eqb_eq (p q : period) : period_eqb p q = true <-> p = q.
Proof.
  destruct p as [y m], q as [y' m']. unfold period_eqb. simpl.
  rewrite andb_true_iff, !Z.eqb_eq. split.
  - intros [-> ->]. reflexivity.
  - intros H. injection H as -> ->. auto.
Qed.

Lemma period_leb_total (p q : period) :
  period_leb p q = true \/ period_leb q p = true.
Proof.
  destruct p as [y m], q as [y' m']. unfold period_leb. simpl.
  rewrite !orb_true_iff, !andb_true_iff, !Z.ltb_lt, !Z.eqb_eq, !Z.leb_le. lia.
Qed.

Lemma period_leb_trans (p q r : period) :
  period_leb p q = true -> period_leb q r = true -> period_leb p r = true.
Proof.
  destruct p as [y m], q as [y' m'], r as [y'' m'']. unfold period_leb. simpl.
  rewrite !orb_true_iff, !andb_true_iff, !Z.ltb_lt, !Z.eqb_eq, !Z.leb_le. lia.
Qed.

Lemma existsb_eqb_In {A} (eqb : A -> A -> bool)
    (eqb_eq : forall x y, eqb x y = true <-> x = y) (v : A) (ks : list A) :
  existsb (fun k => eqb k v) ks = true <-> In v ks.
Proof.
  rewrite existsb_exists. split.
  - intros (k & Hin & Hk). apply eqb_eq in Hk. now subst.
  - intros Hin. exists v. split; [exact Hin | now apply eqb_eq].
Qed.

(** The counts of the distinct values of a list add up to its length. *)
Lemma count_by_cover {A} (eqb : A -> A -> bool)
    (eqb_eq : forall x y, eqb x y = true <-> x = y) (ks vals : list A) :
  NoDup ks -> (forall v, In v vals -> In v ks) ->
  list_sum (map (fun k => count_by eqb k vals) ks) = List.length vals.
Proof.
  intros Hnd Hcover. rewrite (count_by_total eqb eqb_eq ks vals Hnd).
  f_equal. apply forallb_filter_id. apply forallb_forall.
  intros v Hv. apply (existsb_eqb_In eqb eqb_eq). now apply Hcover.
Qed.

Lemma count_in_month (p : period) (df : Table) :
  count_by period_eqb p
    (dropna (map (option_map to_period_M) (map accident_date df)))
  = List.length (filter (in_month p) df).
Proof.
  unfold in_month. induction df as [| r df IH]; simpl; [reflexivity |].
  destruct (accident_date r) as [d |]; simpl; [| exact IH].
  destruct (period_eqb p (to_period_M d)); simpl; now rewrite IH.
Qed.

Lemma dropna_map_length {A B} (f : A -> B) (s : list (option A)) :
  List.length (dropna (map (option_map f) s)) = List.length (dropna s).
Proof.
  induction s as [| [x |] s IH]; simpl; [reflexivity | now rewrite IH | exact IH].
Qed.

(** X16. The monthly trend has one row per month in which a collision of
    the table is dated, in chronological order; its count is the number of
    collisions dated in that month, never zero; and the counts add up to
    the number of collisions that have a date. *)
Theorem monthly_counts_by_month (filtered_df : Table) :
  strictly_ascending period_leb (map fst (monthly filtered_df)) /\
  (forall p n, In (p, n) (monthly filtered_df) ->
     n = List.length (filter (in_month p) filtered_df) /\ (0 < n)%nat) /\
  (forall r d, In r filtered_df -> accident_date r = Some d ->
     In (to_period_M d) (map fst (monthly filtered_df))) /\
  list_sum (map snd (monthly filtered_df))
  = List.length (dropna (map accident_date filtered_df)).
Proof.
  unfold monthly, groupby_size.
  set (present := dropna (map (option_map to_period_M)
                              (map accident_date filtered_df))).
  assert (Hnd : NoDup (unique_by period_eqb present))
    by apply (unique_by_NoDup period_eqb period_eqb_eq).
  rewrite !map_map. simpl. rewrite map_id.
  split; [| split; [| split]].
  - now apply (sort_by_strict period_leb period_leb_total period_leb_trans).
  - intros p n Hin. apply in_map_iff in Hin as (k & Hk & Hin).
    injection Hk as -> <-.
    assert (Hp : In p present).
    { apply (proj1 (sort_by_In period_leb _ _)) in Hin.
      now apply (proj1 (unique_by_In period_eqb period_eqb_eq _ _)) in Hin. }
    split.
    + apply count_in_month.
    + now apply (count_by_pos_In period_eqb period_eqb_eq).
  - intros r d Hr Hd.
    apply (proj2 (sort_by_In period_leb _ _)).
    apply (proj2 (unique_by_In period_eqb period_eqb_eq _ _)).
    unfold present. apply (proj2 (dropna_In _ _)). rewrite map_map.
    apply in_map_iff. exists r. rewrite Hd. auto.
  - rewrite (count_by_cover period_eqb period_eqb_eq).
    + unfold present. apply dropna_map_length.
    + apply (Permutation_NoDup (l := unique_by period_eqb present));
        [symmetry; apply sort_by_perm | exact Hnd].
    + intros v Hv.
      apply (proj2 (sort_by_In period_leb _ _)).
      now apply (proj2 (unique_by_In period_eqb period_eqb_eq _ _)).
Qed.

(** ** Counts per label *)

Lemma sort_desc_sort_by (l : list (string * nat)) :
  sort_desc l = sort_by (fun x y => Nat.leb (snd y) (snd x)) l.
Proof.
  induction l as [| x l IH]; simpl; [reflexivity |].
  rewrite IH. generalize (sort_by (fun x y => Nat.leb (snd y) (snd x)) l) as s.
  induction s as [| y s IHs]; simpl; [reflexivity | now rewrite IHs].
Qed.

Lemma sort_desc_perm (l : list (string * nat)) : Permutation (sort_desc l) l.
Proof. rewrite sort_desc_sort_by. apply sort_by_perm. Qed.

Lemma sort_desc_sorted (l : list (string * nat)) :
  StronglySorted (fun a b => (snd b <= snd a)%nat) (sort_desc l).
Proof.
  rewrite sort_desc_sort_by.
  assert (H : StronglySorted
                (fun a b : string * nat => Nat.leb (snd b) (snd a) = true)
                (sort_by (fun x y => Nat.leb (snd y) (snd x)) l)).
  { apply (sort_by_sorted (fun x y : string * nat => Nat.leb (snd y) (snd x))).
    - intros x y. rewrite !Nat.leb_le. lia.
    - intros x y z. rewrite !Nat.leb_le. lia. }
  induction H as [| a tl Hs IH Ha]; constructor; [exact IH |].
  rewrite Forall_forall in *. intros b Hb. now apply Nat.leb_le, Ha.
Qed.

Lemma list_sum_perm (l l' : list nat) :
  Permutation l l' -> list_sum l = list_sum l'.
Proof. induction 1; simpl; lia. Qed.

(** X17. A counted series ([value_counts], behind the weekday chart and the
    classification pie) lists each label that occurs once, with its number
    of occurrences, never zero, the counts not increasing down the list;
    the counts add up to the number of entries that are not missing. *)
Theorem value_counts_ranked (s : list (option string)) :
  StronglySorted (fun a b => (snd b <= snd a)%nat) (value_counts s) /\
  NoDup (map fst (value_counts s)) /\
  (forall l n, In (l, n) (value_counts s) <->
               (0 < n)%nat /\ n = count l (dropna s)) /\
  list_sum (map snd (value_counts s)) = List.length (dropna s).
Proof.
  unfold value_counts. set (vals := dropna s).
  set (raw := map (fun v => (v, count v vals)) (unique vals)).
  pose proof (sort_desc_perm raw) as Hperm.
  assert (Hkeys : map fst raw = unique vals).
  { unfold raw. rewrite map_map. simpl. apply map_id. }
  split; [apply sort_desc_sorted |]. split; [| split].
  - apply (Permutation_NoDup (l := map fst raw)).
    + symmetry. now apply Permutation_map.
    + rewrite Hkeys. apply unique_NoDup.
  - intros l n. split.
    + intros Hin. apply (Permutation_in _ Hperm) in Hin.
      unfold raw in Hin. apply in_map_iff in Hin as (v & Hv & Hin).
      injection Hv as -> <-. split; [| reflexivity].
      apply count_pos_In. now apply (proj1 (unique_In _ _)).
    + intros [Hpos ->]. apply (Permutation_in _ (Permutation_sym Hperm)).
      unfold raw. apply in_map_iff. exists l. split; [reflexivity |].
      apply (proj2 (unique_In _ _)). now apply count_pos_In.
  - rewrite (list_sum_perm _ (map snd raw)) by now apply Permutation_map.
    unfold raw. rewrite map_map. simpl.
    rewrite (map_ext _ (fun k => count_by String.eqb k vals))
      by (intros k; apply count_count_by).
    apply (count_by_cover String.eqb String.eqb_eq).
    + apply unique_NoDup.
    + intros v Hv. now apply (proj2 (unique_In _ _)).
Qed.

Lemma count_or_zero_counted (d : string) (vals : list string) :
  count_or_zero (counted d vals) = count d vals.
Proof. unfold counted. now destruct (count d vals). Qed.

Lemma week_NoDup : NoDup week.
Proof.
  unfold week.
  repeat (constructor; [simpl; intuition discriminate |]). constructor.
Qed.

Lemma filter_dropna_among (ks : list string) (col : Collision -> option string)
    (df : Table) :
  List.length (filter (fun v => existsb (fun k => String.eqb k v) ks)
                      (dropna (map col df)))
  = List.length (filter (fun r => among String.eqb ks (col r)) df).
Proof.
  induction df as [| r df IH]; simpl; [reflexivity |].
  destruct (col r) as [v |]; simpl; [| exact IH].
  replace (existsb (String.eqb v) ks)
    with (existsb (fun k => String.eqb k v) ks).
  - destruct (existsb (fun k => String.eqb k v) ks); simpl; now rewrite IH.
  - clear IH. induction ks as [| k ks IHk]; simpl; [reflexivity |].
    now rewrite IHk, String.eqb_sym.
Qed.

(** X18. The bars of the weekday chart add up to the number of collisions
    whose weekday is one of the seven names Monday to Sunday; a collision
    with a missing weekday, or one spelled otherwise, is in no bar. *)
Theorem weekday_counts_total (filtered_df : Table) :
  list_sum (map (fun row => count_or_zero (snd row)) (weekday_counts filtered_df))
  = List.length (filter (fun r => among String.eqb week (weekday r)) filtered_df).
Proof.
  unfold weekday_counts, reindex. rewrite map_map.
  rewrite (map_ext _ (fun d => count_by String.eqb d
                                 (dropna (map weekday filtered_df)))).
  - rewrite (count_by_total String.eqb String.eqb_eq) by apply week_NoDup.
    apply filter_dropna_among.
  - intros d. cbn [snd]. rewrite loc_value_counts, count_or_zero_counted.
    apply count_count_by.
Qed.

(** ** The summary block *)

Lemma list_max_In (l : list nat) : l <> [] -> In (list_max l) l.
Proof.
  induction l as [| x l IH]; [congruence |]. intros _.
  destruct l as [| y l].
  - simpl. left. lia.
  - change (list_max (x :: y :: l)) with (Nat.max x (list_max (y :: l))).
    destruct (Nat.max_spec x (list_max (y :: l))) as [[_ ->] | [_ ->]].
    + right. apply IH. discriminate.
    + now left.
Qed.

(** A column with an entry that is not missing has a mode. *)
Lemma mode_nonempty (s : list (option string)) : dropna s <> [] -> mode s <> [].
Proof.
  intros Hne. unfold mode.
  set (vals := dropna s) in *.
  set (counts := map (fun v => count v vals) (unique vals)).
  assert (Hc : counts <> []).
  { unfold counts. destruct vals; [congruence | discriminate]. }
  apply list_max_In in Hc. unfold counts at 2 in Hc.
  apply in_map_iff in Hc as (v & Hv & Hin).
  assert (Hs : In v (sort (filter (fun v => Nat.eqb (count v vals) (list_max counts))
                                  (unique vals)))).
  { apply (proj2 (sort_In _ _)). apply filter_In. split; [exact Hin |].
    now apply Nat.eqb_eq. }
  intros Hnil. fold counts in Hnil. rewrite Hnil in Hs. contradiction.
Qed.

(** [mode()[0]] raises exactly on a column without a value. *)
Lemma getitem0_mode_cases (s : list (option string)) :
  (dropna s = [] /\ getitem0 (mode s) = raise (KeyError "0")) \/
  (dropna s <> [] /\ exists m, getitem0 (mode s) = ret m).
Proof.
  destruct (dropna s) as [| v vals] eqn:Hd.
  - left. split; [reflexivity |]. now rewrite (mode_all_missing s Hd).
  - right. split; [discriminate |].
    assert (Hm : mode s <> []) by (apply mode_nonempty; rewrite Hd; discriminate).
    destruct (mode s) as [| m rest]; [congruence |]. now exists m.
Qed.

Ltac summary_cases r df :=
  unfold insight_summary, top_day, top_light, top_surface, has_value;
  cbn [empty negb];
  destruct (getitem0_mode_cases (map weekday (r :: df)))
    as [[Hd ->] | [Hd [d ->]]];
  destruct (getitem0_mode_cases (map light (r :: df)))
    as [[Hl ->] | [Hl [l ->]]];
  destruct (getitem0_mode_cases (map road_surface_condition (r :: df)))
    as [[Hs ->] | [Hs [s ->]]].

(** X19. The summary block shows its three metrics exactly when the table
    is empty (each metric then reads "N/A") or each of the three columns
    has an entry that is not missing. *)
Theorem insight_summary_complete_iff (filtered_df : Table) :
  (exists d l s,
     insight_summary filtered_df
     = [Subheader "Key Conditions Summary";
        Metric "Most Frequent Day" d;
        Metric "Most Common Light Condition" l;
        Metric "Top Road Surface" s]) <->
  filtered_df = [] \/
  (has_value weekday filtered_df /\ has_value light filtered_df /\
   has_value road_surface_condition filtered_df).
Proof.
  destruct filtered_df as [| r df].
  - split; [now left |]. intros _. exists "N/A", "N/A", "N/A". reflexivity.
  - summary_cases r df; split;
      try (intros (d' & l' & s' & H); discriminate H);
      try (intros [H | (H1 & H2 & H3)]; [discriminate H | congruence]).
    + intros _. right. auto.
    + intros _. exists d, l, s. reflexivity.
Qed.

(** X20. The block stops at the first column without a value: the metrics
    before it are shown, those after it are not, although they could be
    computed, and one warning is logged.  A table with rows whose weekday
    is missing throughout shows no metric at all. *)
Theorem insight_summary_first_failure (filtered_df : Table) :
  filtered_df <> [] ->
  (~ has_value weekday filtered_df ->
   insight_summary filtered_df
   = [Subheader "Key Conditions Summary";
      LogWarning "Insight summary error: 0"]) /\
  (has_value weekday filtered_df -> ~ has_value light filtered_df ->
   exists d,
     insight_summary filtered_df
     = [Subheader "Key Conditions Summary";
        Metric "Most Frequent Day" d;
        LogWarning "Insight summary error: 0"]) /\
  (has_value weekday filtered_df -> has_value light filtered_df ->
   ~ has_value road_surface_condition filtered_df ->
   exists d l,
     insight_summary filtered_df
     = [Subheader "Key Conditions Summary";
        Metric "Most Frequent Day" d;
        Metric "Most Common Light Condition" l;
        LogWarning "Insight summary error: 0"]).
Proof.
  destruct filtered_df as [| r df]; [congruence |]. intros _.
  summary_cases r df; repeat split; intros; try contradiction;
    try reflexivity; try (eexists; reflexivity);
    try (eexists; eexists; reflexivity).
Qed.

Lemma insight_summary_first_failure_witness :
  insight_summary [observed None (Some "Dark") (Some "Wet")]
  = [Subheader "Key Conditions Summary";
     LogWarning "Insight summary error: 0"].
Proof.
  apply (proj1 (insight_summary_first_failure
                  [observed None (Some "Dark") (Some "Wet")]
                  ltac:(discriminate))).
  intros H. apply H. reflexivity.
Defined.

(** ** The comparison with the overall rate *)

Lemma Qle_bool_minus_self (q : Q) :
  Qle_bool (q - q) 0 = true /\ Qle_bool 0 (q - q) = true.
Proof.
  assert (H : q - q == 0) by (unfold Qminus; apply Qplus_opp_r).
  split; apply Qle_bool_iff; rewrite H; apply Qle_refl.
Qed.

(** X21. Without any selection the comparison reads "matches the overall
    average": the filtered table is the whole table and the two rates are
    the same number. *)
Theorem comparison_without_selection (df : Table) (S : Selection) :
  (forall a, selected S a = []) ->
  comparison df (filtered_df df S) = Matches.
Proof.
  intros H. apply selected_empty in H. subst S.
  change (filtered_df df no_selection) with df.
  unfold comparison, injury_diff, filtered_avg_injury_rate, all_avg_injury_rate.
  destruct df as [| r df]; [reflexivity |].
  change (Nat.ltb 0 (len (r :: df))) with true. cbn iota.
  destruct (truediv (sum (map num_of_injuries (r :: df))) (len (r :: df)))
    as [q | | b] eqn:Hq.
  - unfold number_sub, gt0, lt0.
    destruct (Qle_bool_minus_self q) as [-> ->]. reflexivity.
  - reflexivity.
  - unfold number_sub. rewrite Bool.eqb_reflx. reflexivity.
Qed.

Lemma comparison_without_selection_witness :
  comparison [with_injuries (Some 3%Z); with_injuries None]
             (filtered_df [with_injuries (Some 3%Z); with_injuries None]
                          no_selection)
  = Matches.
Proof.
  apply (comparison_without_selection
           [with_injuries (Some 3%Z); with_injuries None] no_selection).
  intros []; reflexivity.
Defined.

(** X22. When the selection leaves no row, the filtered rate is 0 and the
    comparison is with the overall rate alone: "lower than average" by the
    overall rate when the table has injuries, "matches" when it has
    none. *)
Theorem comparison_of_empty_result (df : Table) :
  df <> [] ->
  ((0 < sum (map num_of_injuries df))%Z ->
   exists q,
     comparison df [] = Lower (Finite q) /\
     q == sum (map num_of_injuries df) # Pos.of_nat (len df)) /\
  (sum (map num_of_injuries df) = 0%Z -> comparison df [] = Matches).
Proof.
  intros Hne. destruct df as [| r df]; [congruence |].
  unfold comparison, injury_diff, filtered_avg_injury_rate, all_avg_injury_rate.
  change (Nat.ltb 0 (len [])) with false. cbn iota.
  set (total := sum (map num_of_injuries (r :: df))).
  set (n := len (r :: df)).
  assert (Hn : truediv total n = Finite (total # Pos.of_nat n)) by reflexivity.
  rewrite Hn. unfold number_sub, gt0, lt0, number_neg.
  split.
  - intros Hpos.
    assert (Hle : Qle_bool (0 - (total # Pos.of_nat n)) 0 = true).
    { apply Qle_bool_iff. unfold Qle. simpl. lia. }
    assert (Hlt : Qle_bool 0 (0 - (total # Pos.of_nat n)) = false).
    { destruct (Qle_bool 0 (0 - (total # Pos.of_nat n))) eqn:Hb; [| reflexivity].
      apply Qle_bool_iff in Hb. unfold Qle in Hb. simpl in Hb. lia. }
    rewrite Hle, Hlt. simpl.
    eexists. split; [reflexivity |]. ring.
  - intros Hz. rewrite Hz.
    assert (Hle : Qle_bool (0 - (0 # Pos.of_nat n)) 0 = true).
    { apply Qle_bool_iff. unfold Qle. simpl. lia. }
    assert (Hge : Qle_bool 0 (0 - (0 # Pos.of_nat n)) = true).
    { apply Qle_bool_iff. unfold Qle. simpl. lia. }
    rewrite Hle, Hge. reflexivity.
Qed.

Lemma comparison_of_empty_result_witness :
  comparison [with_injuries (Some 3%Z); with_injuries None] [] = Matches \/
  exists q,
    comparison [with_injuries (Some 3%Z); with_injuries None] []
    = Lower (Finite q) /\
    q == sum (map num_of_injuries
                  [with_injuries (Some 3%Z); with_injuries None])
         # Pos.of_nat (len [with_injuries (Some 3%Z); with_injuries None]).
Proof.
  right.
  apply (proj1 (comparison_of_empty_result
                  [with_injuries (Some 3%Z); with_injuries None]
                  ltac:(discriminate))).
  reflexivity.
Defined.

(** ** More on the mode and on the load *)

(** X23. [mode()] lists every most frequent value, each once, in ascending
    order: on a tie all tied values are there, the least first. *)
Theorem mode_lists_all_ties (s : list (option string)) :
  (forall v, In v (mode s) <-> most_frequent v (dropna s)) /\
  strictly_ascending String.leb (mode s).
Proof.
  split; [intros v; apply mode_In |].
  unfold mode. rewrite sort_sort_by.
  apply (sort_by_strict String.leb String.leb_total leb_trans).
  apply NoDup_filter, unique_NoDup.
Qed.

Lemma merge_all_len_ge dim_data js : forall fact_df out,
  merge_all dim_data js fact_df = ret out ->
  (Frame.len fact_df <= Frame.len out)%nat.
Proof.
  induction js as [| [sheet key] js IH]; simpl; intros fact_df out Hm.
  - injection Hm as <-. lia.
  - apply bind_ret_inv in Hm as (mid & Hmid & Hrest).
    unfold merge_dim, getitem in Hmid.
    destruct (lookup sheet dim_data) as [t |]; [| discriminate Hmid].
    simpl in Hmid.
    pose proof (merge_len_ge fact_df t mid key Hmid).
    specialize (IH _ _ Hrest). lia.
Qed.

(** X24. Whatever the lookup sheets hold, a load that succeeds returns at
    least as many rows as the fact table has: the joins can repeat a
    collision (when a lookup sheet repeats a key) but never lose one. *)
Theorem load_never_drops_rows (fs : Files) (fact df : DataFrame)
    (dim_data : list (string * DataFrame)) :
  csv fs = Some fact ->
  load_body fs = ret (df, dim_data) ->
  (Frame.len fact <= Frame.len df)%nat.
Proof.
  intros Hcsv Hload.
  apply load_body_ret_inv in Hload as (fact' & Hcsv' & _ & Hmerge).
  assert (fact' = fact) by congruence. subst fact'.
  exact (merge_all_len_ge dim_data joins fact df Hmerge).
Qed.

Lemma load_never_drops_rows_witness :
  exists df,
    load_body repeating_files = ret (df, repeating_sheets) /\
    (Frame.len demo_fact <= Frame.len df)%nat.
Proof.
  eexists. split.
  - vm_compute. reflexivity.
  - refine (load_never_drops_rows repeating_files demo_fact _
                                  repeating_sheets _ _).
    + reflexivity.
    + vm_compute. reflexivity.
Defined.

(** On that workbook the first collision comes out twice. *)
Example repeated_key_repeats_collision :
  option_map (fun r => Frame.len (fst r))
             (match load_body repeating_files with
              | inr r => Some r
              | inl _ => None
              end)
  = Some 3%nat.
Proof. reflexivity. Qed.

Lemma merge_all_well_formed dim_data js : forall fact_df out,
  (forall sheet t, lookup sheet dim_data = Some t -> well_formed t) ->
  well_formed fact_df ->
  merge_all dim_data js fact_df = ret out ->
  well_formed out.
Proof.
  induction js as [| [sheet key] js IH]; simpl; intros fact_df out Hd Hf Hm.
  - now injection Hm as <-.
  - apply bind_ret_inv in Hm as (mid & Hmid & Hrest).
    unfold merge_dim, getitem in Hmid.
    destruct (lookup sheet dim_data) as [t |] eqn:Hs; [| discriminate Hmid].
    simpl in Hmid.
    apply (IH mid out Hd); [| exact Hrest].
    apply (merge_rows_shape fact_df t mid key Hf (Hd sheet t Hs) Hmid).
Qed.

(** X25. The load keeps the table in shape: when every row of the fact
    table and of the lookup sheets has one cell per column, so has every
    row of the joined table. *)
Theorem load_well_formed (fs : Files) (fact df : DataFrame)
    (dim_data : list (string * DataFrame)) :
  csv fs = Some fact ->
  well_formed fact ->
  (forall sheet t, lookup sheet dim_data = Some t -> well_formed t) ->
  load_body fs = ret (df, dim_data) ->
  well_formed df.
Proof.
  intros Hcsv Hf Hd Hload.
  apply load_body_ret_inv in Hload as (fact' & Hcsv' & _ & Hmerge).
  assert (fact' = fact) by congruence. subst fact'.
  exact (merge_all_well_formed dim_data joins fact df Hd Hf Hmerge).
Qed.

Lemma load_well_formed_witness :
  exists df,
    load_body demo_files = ret (df, demo_sheets) /\ well_formed df.
Proof.
  eexists. split.
  - vm_compute. reflexivity.
  - refine (load_well_formed demo_files demo_fact _ demo_sheets _ _ _ _).
    + reflexivity.
    + repeat constructor.
    + intros sheet t Hs. unfold demo_sheets in Hs. simpl in Hs.
      repeat match type of Hs with
             | (if ?b then _ else _) = _ =>
                 destruct b; [injection Hs as <-; repeat constructor |]
             end.
      discriminate Hs.
    + vm_compute. reflexivity.
Defined.
